(** * The socket manager of the chat middleware

    A shallow embedding of [src/services/socketManager.ts]: the session
    resolver ([ensureSession]), the history loader ([getHistory]) and the
    listeners that [registerSocketEvents] installs on a socket, over an
    explicit model of the three things the module talks to: the Prisma
    tables, the socket.io server and the n8n webhook.

    - The tables are lists of rows.  Every call to Prisma may reject: the
      world carries, for the calls to come, whether each one rejects.  In the
      same way it carries the identifiers the generators will hand out, the
      readings of the clock and the outcomes of the webhook calls, so that a
      statement quantified over worlds covers every behaviour of the
      collaborators.
    - The socket.io server is the [data] of each socket, the membership of
      the rooms, and the list of every event emitted with its recipient.
    - Every [async] function is run to completion before the next event is
      taken: there is no interleaving at an [await].
    - Calls to the logger are left out. *)

From Stdlib Require Import String Ascii List ZArith Bool Arith Lia.
From Stdlib Require Import Sorting.Sorted Sorting.Permutation.
Import ListNotations.

#[local] Open Scope string_scope.
#[local] Open Scope list_scope.
#[local] Open Scope Z_scope.

(** ** JavaScript values *)

(** Truthiness of a [string | undefined]: [undefined] and the empty string
    are falsy. *)
Definition truthy (v : option string) : bool :=
  match v with
  | Some (String _ _) => true
  | _ => false
  end.

(** [a || b] *)
Definition or_else (a b : option string) : option string :=
  if truthy a then a else b.

(** [a ?? b] *)
Definition nullish (a b : option string) : option string :=
  match a with
  | Some _ => a
  | None => b
  end.

(** The white space and line terminators that [String.prototype.trim]
    strips, among the code units below 256. *)
Definition is_white_space (c : ascii) : bool :=
  let n := nat_of_ascii c in
  ((n =? 9) || (n =? 10) || (n =? 11) || (n =? 12) || (n =? 13)
   || (n =? 32) || (n =? 160))%nat.

Fixpoint trimStart (s : string) : string :=
  match s with
  | EmptyString => EmptyString
  | String c r => if is_white_space c then trimStart r else s
  end.

Fixpoint trimEnd (s : string) : string :=
  match s with
  | EmptyString => EmptyString
  | String c r =>
      match trimEnd r with
      | EmptyString => if is_white_space c then EmptyString else String c EmptyString
      | r' => String c r'
      end
  end.

Definition trim (s : string) : string := trimEnd (trimStart s).

(** ** The Prisma rows *)

(** Modelled from the spec: the enums [chat_session_status] and
    [message_role] are declared by the Prisma schema, which is not among the
    sources; the spec gives status ∈ {ACTIVE, CLOSED} and
    role ∈ {USER, BOT, SYSTEM}. *)
Inductive chat_session_status := ACTIVE | CLOSED.
Inductive message_role := USER | BOT | SYSTEM.

Definition status_eqb (a b : chat_session_status) : bool :=
  match a, b with
  | ACTIVE, ACTIVE | CLOSED, CLOSED => true
  | _, _ => false
  end.

Module ChatSession.
Record t := mk {
  id : string;
  visitor_id : string;
  status : chat_session_status;
  created_at : Z;
  last_active_at : Z;
  metadata : option string
}.
End ChatSession.

Module ChatMessage.
Record t := mk {
  id : string;
  session_id : string;
  role : message_role;
  content : string;
  created_at : Z
}.
End ChatMessage.

Module ChatMessageDto.
Record t := mk {
  id : string;
  sender : message_role;
  content : string;
  createdAt : Z
}.
End ChatMessageDto.

(** [createdAt] keeps the instant; its ISO-8601 rendering is not modelled. *)
Definition mapMessage (message : ChatMessage.t) : ChatMessageDto.t :=
  {| ChatMessageDto.id := ChatMessage.id message;
     ChatMessageDto.sender := ChatMessage.role message;
     ChatMessageDto.content := ChatMessage.content message;
     ChatMessageDto.createdAt := ChatMessage.created_at message |}.

(** ** Payloads and events *)

Module IncomingMessagePayload.
Record t := mk {
  sessionId : option string;
  content : option string;   (* read with [?.]: may be missing at run time *)
  metadata : option string
}.
End IncomingMessagePayload.

Module HeartbeatPayload.
Record t := mk { sessionId : option string }.
End HeartbeatPayload.

Module EndSessionPayload.
Record t := mk { sessionId : option string }.
End EndSessionPayload.

Module ClientToServerEvents.
Inductive t :=
| message (payload : IncomingMessagePayload.t)
| heartbeat (payload : HeartbeatPayload.t)
| endSession (payload : EndSessionPayload.t)
| end_chat (payload : EndSessionPayload.t).
End ClientToServerEvents.

Module ServerToClientEvents.
Inductive t :=
| session (sessionId visitorId : string) (st : chat_session_status)
| history (messages : list ChatMessageDto.t)
| message (m : ChatMessageDto.t)
| status (st : chat_session_status)
| error (message : string)
| sessionClosed (sessionId message : string).
End ServerToClientEvents.

Module N8nHistoryEntry.
Record t := mk {
  sender : message_role;
  content : string;
  createdAt : Z
}.
End N8nHistoryEntry.

Module N8nRequest.
Record t := mk {
  sessionId : string;
  message : string;
  history : list N8nHistoryEntry.t;
  metadata : option string
}.
End N8nRequest.

Module Handshake.
Record fields := mk_fields {
  visitorId : option string;
  sessionId : option string
}.
Record t := mk {
  auth : option fields;      (* read with [?.] *)
  query : fields
}.
End Handshake.

(** ** The world the module runs in *)

Definition SocketId := nat.

Module SocketData.
Record t := mk {
  sessionId : option string;
  visitorId : option string
}.
End SocketData.

(** The durable tables. *)
Record Db := mkDb {
  chatSession : list ChatSession.t;
  chatMessage : list ChatMessage.t
}.

(** The socket.io server: per-socket [data], the rooms of the adapter, which
    sockets are connected and have their listeners registered, and every
    event emitted so far with the socket it was delivered to. *)
Record Io := mkIo {
  data : SocketId -> SocketData.t;
  rooms : list (string * SocketId);
  connected : SocketId -> bool;
  listening : SocketId -> bool;
  emitted : list (SocketId * ServerToClientEvents.t)
}.

(** What the collaborators will answer next: whether the coming repository
    calls reject, the identifiers the generators hand out, the readings of
    the clock, the outcomes of the coming webhook calls ([None]: the call
    throws), and the requests the webhook has received. *)
Record Ext := mkExt {
  faults : nat -> bool;
  uuids : nat -> string;
  dates : nat -> Z;
  n8n_replies : nat -> option string;
  n8n_calls : list N8nRequest.t
}.

Record World := mkWorld {
  db : Db;
  io : Io;
  ext : Ext
}.

Definition set_db (f : Db -> Db) (w : World) : World :=
  mkWorld (f (db w)) (io w) (ext w).
Definition set_io (f : Io -> Io) (w : World) : World :=
  mkWorld (db w) (f (io w)) (ext w).
Definition set_ext (f : Ext -> Ext) (w : World) : World :=
  mkWorld (db w) (io w) (f (ext w)).

(** ** Asynchronous code that may throw *)

Inductive Err := PrismaFault | RecordNotFound | UniqueConstraint | N8nFailure.

Inductive Result (A : Type) :=
| Ok (a : A)
| Throw (e : Err).
Arguments Ok {A} a.
Arguments Throw {A} e.

(** What was written before a throw stays written. *)
Definition M (A : Type) : Type := World -> Result A * World.

Definition ret {A} (a : A) : M A := fun w => (Ok a, w).

Definition bind {A B} (c : M A) (k : A -> M B) : M B :=
  fun w =>
    match c w with
    | (Ok a, w') => k a w'
    | (Throw e, w') => (Throw e, w')
    end.

Definition throw {A} (e : Err) : M A := fun w => (Throw e, w).

Definition try_catch {A} (body : M A) (handler : Err -> M A) : M A :=
  fun w =>
    match body w with
    | (Ok a, w') => (Ok a, w')
    | (Throw e, w') => handler e w'
    end.

Definition get : M World := fun w => (Ok w, w).
Definition modify (f : World -> World) : M unit := fun w => (Ok tt, f w).

Declare Scope js_scope.
Delimit Scope js_scope with js.
Notation "x <- c ;; k" := (bind c (fun x => k))
  (at level 61, c at next level, right associativity) : js_scope.
Notation "c ;; k" := (bind c (fun _ => k))
  (at level 61, right associativity) : js_scope.
#[local] Open Scope js_scope.

(** The final world of a run, whatever its outcome. *)
Definition exec {A} (c : M A) (w : World) : World := snd (c w).

(** ** The collaborators *)

Definition advance {A} (f : nat -> A) : nat -> A := fun n => f (S n).

Definition take_fault (e : Ext) : Ext :=
  mkExt (advance (faults e)) (uuids e) (dates e) (n8n_replies e) (n8n_calls e).
Definition take_uuid (e : Ext) : Ext :=
  mkExt (faults e) (advance (uuids e)) (dates e) (n8n_replies e) (n8n_calls e).
Definition take_date (e : Ext) : Ext :=
  mkExt (faults e) (uuids e) (advance (dates e)) (n8n_replies e) (n8n_calls e).
Definition take_reply (req : N8nRequest.t) (e : Ext) : Ext :=
  mkExt (faults e) (uuids e) (dates e) (advance (n8n_replies e))
        (n8n_calls e ++ [req]).

(** [uuid()], also used for the identifiers the database gives new rows. *)
Definition uuid : M string :=
  fun w => (Ok (uuids (ext w) 0%nat), set_ext take_uuid w).

(** [new Date()], also used for the [now()] column defaults. *)
Definition new_Date : M Z :=
  fun w => (Ok (dates (ext w) 0%nat), set_ext take_date w).

(** One round trip to the database; it rejects when the environment says
    so (connection lost, time-out, ...). *)
Definition prisma : M unit :=
  fun w =>
    if faults (ext w) 0%nat
    then (Throw PrismaFault, set_ext take_fault w)
    else (Ok tt, set_ext take_fault w).

(** Modelled from the spec: [sendToN8n] lives in [n8nService.ts], which is
    not among the sources; the spec's Reply Oracle is given the session id,
    the new message and the history, and returns a reply string or fails. *)
Definition sendToN8n (req : N8nRequest.t) : M string :=
  fun w =>
    match n8n_replies (ext w) 0%nat with
    | Some reply => (Ok reply, set_ext (take_reply req) w)
    | None => (Throw N8nFailure, set_ext (take_reply req) w)
    end.

(** *** Queries *)

(** [orderBy]: a stable insertion sort; rows with equal keys keep the order
    of the table. *)
Fixpoint insert_by {A} (le : A -> A -> bool) (x : A) (l : list A) : list A :=
  match l with
  | [] => [x]
  | y :: r => if le x y then x :: l else y :: insert_by le x r
  end.

Definition orderBy {A} (le : A -> A -> bool) (l : list A) : list A :=
  fold_right (insert_by le) [] l.

Definition session_created_at_desc (a b : ChatSession.t) : bool :=
  ChatSession.created_at b <=? ChatSession.created_at a.

Definition message_created_at_asc (a b : ChatMessage.t) : bool :=
  ChatMessage.created_at a <=? ChatMessage.created_at b.

Definition has_id (i : string) (s : ChatSession.t) : bool :=
  String.eqb (ChatSession.id s) i.

Definition message_has_id (i : string) (m : ChatMessage.t) : bool :=
  String.eqb (ChatMessage.id m) i.

Definition of_session (i : string) (m : ChatMessage.t) : bool :=
  String.eqb (ChatMessage.session_id m) i.

(** [where: { visitor_id: visitorId, status: { not: CLOSED } }] *)
Definition open_session_of (visitorId : string) (s : ChatSession.t) : bool :=
  String.eqb (ChatSession.visitor_id s) visitorId
  && negb (status_eqb (ChatSession.status s) CLOSED).

Definition set_chatSession (f : list ChatSession.t -> list ChatSession.t) (d : Db) : Db :=
  mkDb (f (chatSession d)) (chatMessage d).
Definition set_chatMessage (f : list ChatMessage.t -> list ChatMessage.t) (d : Db) : Db :=
  mkDb (chatSession d) (f (chatMessage d)).

(** [prisma.chatSession.findUnique({ where: { id } })] *)
Definition chatSession_findUnique (i : string) : M (option ChatSession.t) :=
  prisma ;;
  w <- get ;;
  ret (find (has_id i) (chatSession (db w))).

(** [prisma.chatSession.findFirst({ where, orderBy })] *)
Definition chatSession_findFirst
    (where_ : ChatSession.t -> bool)
    (order : ChatSession.t -> ChatSession.t -> bool) : M (option ChatSession.t) :=
  prisma ;;
  w <- get ;;
  ret (hd_error (orderBy order (filter where_ (chatSession (db w))))).

Definition touch (last_active_at : Z) (st : chat_session_status)
    (s : ChatSession.t) : ChatSession.t :=
  ChatSession.mk (ChatSession.id s) (ChatSession.visitor_id s) st
                 (ChatSession.created_at s) last_active_at
                 (ChatSession.metadata s).

(** [prisma.chatSession.update({ where: { id }, data: { last_active_at, status } })];
    Prisma throws when no row has that id. *)
Definition chatSession_update (i : string) (last_active_at : Z)
    (st : chat_session_status) : M ChatSession.t :=
  prisma ;;
  w <- get ;;
  match find (has_id i) (chatSession (db w)) with
  | None => throw RecordNotFound
  | Some s =>
      modify (set_db (set_chatSession
        (map (fun r => if has_id i r then touch last_active_at st r else r)))) ;;
      ret (touch last_active_at st s)
  end.

(** Modelled from the spec: the column defaults of the Prisma schema, which
    is not among the sources; a new session gets a generated id, its created
    and last-active timestamps from the clock and no metadata, a new message
    a generated id and its created timestamp from the clock.  The primary
    key rejects an id that is already taken. *)
Definition chatSession_create (visitor_id : string)
    (st : chat_session_status) : M ChatSession.t :=
  prisma ;;
  i <- uuid ;;
  now <- new_Date ;;
  w <- get ;;
  if existsb (has_id i) (chatSession (db w)) then throw UniqueConstraint
  else
    let s := ChatSession.mk i visitor_id st now now None in
    modify (set_db (set_chatSession (fun rows => rows ++ [s]))) ;;
    ret s.

(** [prisma.chatMessage.create({ data: { session_id, role, content } })];
    defaults as for [chatSession_create].  Every caller has just read or
    updated the session row, so the foreign key is not checked again. *)
Definition chatMessage_create (session_id : string) (role : message_role)
    (content : string) : M ChatMessage.t :=
  prisma ;;
  i <- uuid ;;
  now <- new_Date ;;
  w <- get ;;
  if existsb (message_has_id i) (chatMessage (db w)) then throw UniqueConstraint
  else
    let m := ChatMessage.mk i session_id role content now in
    modify (set_db (set_chatMessage (fun rows => rows ++ [m]))) ;;
    ret m.

(** [prisma.chatMessage.findMany({ where: { session_id }, orderBy: { created_at: 'asc' }, take })];
    [take] is a count: both call sites pass a non-negative integer. *)
Definition chatMessage_findMany (session_id : string) (take : nat)
    : M (list ChatMessage.t) :=
  prisma ;;
  w <- get ;;
  ret (firstn take (orderBy message_created_at_asc
                      (filter (of_session session_id) (chatMessage (db w))))).

(** *** The socket.io server *)

Definition upd {A} (k : SocketId) (v : A) (f : SocketId -> A) : SocketId -> A :=
  fun j => if Nat.eqb j k then v else f j.

Definition in_room (room : string) (m : string * SocketId) : bool :=
  String.eqb (fst m) room.

Definition is_member (room : string) (k : SocketId) (m : string * SocketId) : bool :=
  String.eqb (fst m) room && Nat.eqb (snd m) k.

(** [socket.emit(ev)] *)
Definition socket_emit (socket : SocketId) (ev : ServerToClientEvents.t) : M unit :=
  modify (set_io (fun i =>
    mkIo (data i) (rooms i) (connected i) (listening i)
         (emitted i ++ [(socket, ev)]))).

(** [io.to(room).emit(ev)]: one delivery per socket in the room. *)
Definition io_to_emit (room : string) (ev : ServerToClientEvents.t) : M unit :=
  modify (set_io (fun i =>
    mkIo (data i) (rooms i) (connected i) (listening i)
         (emitted i ++ map (fun m => (snd m, ev)) (filter (in_room room) (rooms i))))).

(** [socket.join(room)] *)
Definition socket_join (socket : SocketId) (room : string) : M unit :=
  modify (set_io (fun i =>
    mkIo (data i)
         (if existsb (is_member room socket) (rooms i) then rooms i
          else rooms i ++ [(room, socket)])
         (connected i) (listening i) (emitted i))).

(** [socket.leave(room)] *)
Definition socket_leave (socket : SocketId) (room : string) : M unit :=
  modify (set_io (fun i =>
    mkIo (data i)
         (filter (fun m => negb (is_member room socket m)) (rooms i))
         (connected i) (listening i) (emitted i))).

(** [socket.disconnect(true)]: the transport is closed and the socket
    leaves every room. *)
Definition socket_disconnect (socket : SocketId) : M unit :=
  modify (set_io (fun i =>
    mkIo (data i)
         (filter (fun m => negb (Nat.eqb (snd m) socket)) (rooms i))
         (upd socket false (connected i)) (listening i) (emitted i))).

(** [socket.data.sessionId = v] *)
Definition set_data_sessionId (socket : SocketId) (v : option string) : M unit :=
  modify (set_io (fun i =>
    mkIo (upd socket (SocketData.mk v (SocketData.visitorId (data i socket))) (data i))
         (rooms i) (connected i) (listening i) (emitted i))).

(** [socket.data.visitorId = v] *)
Definition set_data_visitorId (socket : SocketId) (v : option string) : M unit :=
  modify (set_io (fun i =>
    mkIo (upd socket (SocketData.mk (SocketData.sessionId (data i socket)) v) (data i))
         (rooms i) (connected i) (listening i) (emitted i))).

(** [socket.on(...)] for the four events of [registerSocketEvents]. *)
Definition socket_on (socket : SocketId) : M unit :=
  modify (set_io (fun i =>
    mkIo (data i) (rooms i) (connected i) (upd socket true (listening i))
         (emitted i))).

(** [if (v) yes(v) else no] on a [string | undefined]. *)
Definition if_truthy {A} (v : option string) (yes : string -> A) (no : A) : A :=
  match v with
  | Some (String _ _ as s) => yes s
  | _ => no
  end.

(** ** The module's functions *)

(** The session resolver. *)
Definition ensureSession (visitorId : string) (requestedSessionId : option string)
    : M ChatSession.t :=
  let no_reuse : M ChatSession.t :=
    (* Check for any non-closed session for this visitor *)
    existing <- chatSession_findFirst (open_session_of visitorId)
                                      session_created_at_desc ;;
    match existing with
    | Some e => ret e
    | None =>
        (* Create new session *)
        chatSession_create visitorId ACTIVE
    end in
  if_truthy requestedSessionId
    (fun requested =>
       session <- chatSession_findUnique requested ;;
       match session with
       | Some s =>
           if negb (status_eqb (ChatSession.status s) CLOSED) then ret s
           else no_reuse
       | None => no_reuse
       end)
    no_reuse.

(** The history loader; [limit = 100] by default. *)
Definition getHistory (sessionId : string) (limit : option nat)
    : M (list ChatMessageDto.t) :=
  let limit := match limit with Some n => n | None => 100%nat end in
  messages <- chatMessage_findMany sessionId limit ;;
  ret (map mapMessage messages).

Definition history_entry (m : ChatMessageDto.t) : N8nHistoryEntry.t :=
  N8nHistoryEntry.mk (ChatMessageDto.sender m) (ChatMessageDto.content m)
                     (ChatMessageDto.createdAt m).

(** The listener of the [message] event. *)
Definition on_message (socket : SocketId) (payload : IncomingMessagePayload.t)
    : M unit :=
  w <- get ;;
  if_truthy (nullish (IncomingMessagePayload.sessionId payload)
                     (SocketData.sessionId (data (io w) socket)))
    (fun sessionId =>
       if_truthy (option_map trim (IncomingMessagePayload.content payload))
         (fun content =>
            try_catch
              (session <- chatSession_findUnique sessionId ;;
               match session with
               | None =>
                   socket_emit socket (ServerToClientEvents.error
                     "Session expired. Please refresh the page.") ;;
                   socket_emit socket (ServerToClientEvents.sessionClosed sessionId
                     "Session not found. Starting new session...")
               | Some s =>
                   if status_eqb (ChatSession.status s) CLOSED then
                     socket_emit socket (ServerToClientEvents.sessionClosed sessionId
                       "Session was closed. Please start a new chat.")
                   else
                     userMessage <- chatMessage_create sessionId USER content ;;
                     io_to_emit sessionId
                       (ServerToClientEvents.message (mapMessage userMessage)) ;;
                     now <- new_Date ;;
                     chatSession_update sessionId now ACTIVE ;;
                     historyForBrain <- getHistory sessionId (Some 50%nat) ;;
                     aiReply <- sendToN8n
                       (N8nRequest.mk sessionId content
                          (map history_entry historyForBrain)
                          (IncomingMessagePayload.metadata payload)) ;;
                     aiMessage <- chatMessage_create sessionId BOT aiReply ;;
                     io_to_emit sessionId
                       (ServerToClientEvents.message (mapMessage aiMessage))
               end)
              (fun _ =>
                 socket_emit socket (ServerToClientEvents.error
                   "Unable to send message right now. Please try again."))
         )
         (ret tt))
    (socket_emit socket (ServerToClientEvents.error
       "Session not established yet. Please wait.")).

(** The listener of the [heartbeat] event. *)
Definition on_heartbeat (socket : SocketId) (payload : HeartbeatPayload.t)
    : M unit :=
  w <- get ;;
  if_truthy (nullish (HeartbeatPayload.sessionId payload)
                     (SocketData.sessionId (data (io w) socket)))
    (fun sessionId =>
       try_catch
         (now <- new_Date ;;
          chatSession_update sessionId now ACTIVE ;;
          ret tt)
         (fun _ => ret tt))
    (ret tt).

(** The unified end-session logic. *)
Definition handleEndSession (socket : SocketId) (payload : EndSessionPayload.t)
    : M unit :=
  w <- get ;;
  if_truthy (nullish (EndSessionPayload.sessionId payload)
                     (SocketData.sessionId (data (io w) socket)))
    (fun sessionId =>
       try_catch
         ((* 1. Close session in database *)
          now <- new_Date ;;
          chatSession_update sessionId now CLOSED ;;
          (* 2. Add system message *)
          chatMessage_create sessionId SYSTEM "Chat session ended by user." ;;
          (* 3. Notify client *)
          socket_emit socket (ServerToClientEvents.sessionClosed sessionId
            "Session ended successfully. You can start a new conversation.") ;;
          (* 4. Clean up socket *)
          socket_leave socket sessionId ;;
          set_data_sessionId socket None)
         (fun _ =>
            socket_emit socket (ServerToClientEvents.error
              "Failed to end session. Please try again.")))
    (ret tt).

(** The listeners that [registerSocketEvents] installs, by event. *)
Definition registerSocketEvents (socket : SocketId)
    (event : ClientToServerEvents.t) : M unit :=
  match event with
  | ClientToServerEvents.message payload => on_message socket payload
  | ClientToServerEvents.heartbeat payload => on_heartbeat socket payload
  | ClientToServerEvents.endSession payload => handleEndSession socket payload
  | ClientToServerEvents.end_chat payload => handleEndSession socket payload
  end.

Definition handshake_auth (h : Handshake.t) (field : Handshake.fields -> option string)
    : option string :=
  match Handshake.auth h with
  | Some a => field a
  | None => None
  end.

(** [handshake.auth?.visitorId || handshake.query.visitorId] *)
Definition supplied_visitorId (h : Handshake.t) : option string :=
  or_else (handshake_auth h Handshake.visitorId)
          (Handshake.visitorId (Handshake.query h)).

(** [handshake.auth?.sessionId || handshake.query.sessionId] *)
Definition requested_sessionId (h : Handshake.t) : option string :=
  or_else (handshake_auth h Handshake.sessionId)
          (Handshake.sessionId (Handshake.query h)).

(** The listener of the server's [connection] event. *)
Definition handleConnection (socket : SocketId) (handshake : Handshake.t)
    : M unit :=
  visitorId <- if_truthy (supplied_visitorId handshake) ret uuid ;;
  let requestedSessionId := requested_sessionId handshake in
  try_catch
    (session <- ensureSession visitorId requestedSessionId ;;
     set_data_sessionId socket (Some (ChatSession.id session)) ;;
     set_data_visitorId socket (Some visitorId) ;;
     socket_join socket (ChatSession.id session) ;;
     socket_on socket ;;
     socket_emit socket
       (ServerToClientEvents.session (ChatSession.id session) visitorId
                                     (ChatSession.status session)) ;;
     history <- getHistory (ChatSession.id session) None ;;
     match history with
     | [] => ret tt
     | _ :: _ => socket_emit socket (ServerToClientEvents.history history)
     end ;;
     now <- new_Date ;;
     chatSession_update (ChatSession.id session) now ACTIVE ;;
     ret tt)
    (fun _ =>
       socket_emit socket (ServerToClientEvents.error
         "Unable to start chat session. Please refresh and try again.") ;;
       socket_disconnect socket).

(** ** The server as a transition system *)

Inductive Input :=
| connection (socket : SocketId) (handshake : Handshake.t)
| client (socket : SocketId) (event : ClientToServerEvents.t).

(** A socket as socket.io hands it to the [connection] listener: connected,
    with empty [data], in no room, without listeners. *)
Definition accept (socket : SocketId) (o : Io) : Io :=
  mkIo (upd socket (SocketData.mk None None) (data o))
       (filter (fun m => negb (Nat.eqb (snd m) socket)) (rooms o))
       (upd socket true (connected o))
       (upd socket false (listening o))
       (emitted o).

(** A new transport is accepted and handed to [handleConnection]; an event
    of a client reaches its listener once the listeners are installed and
    while the transport is open. *)
Definition step (w : World) (i : Input) : World :=
  match i with
  | connection socket handshake =>
      exec (handleConnection socket handshake) (set_io (accept socket) w)
  | client socket event =>
      if connected (io w) socket && listening (io w) socket
      then exec (registerSocketEvents socket event) w
      else w
  end.

(** The inputs handled one after the other: each listener runs from its
    start to its end before the next input is taken.  Listeners that overlap
    at an [await] are outside this model. *)
Definition run (w : World) (inputs : list Input) : World :=
  fold_left step inputs w.

(** The status a session has in the tables. *)
Definition status_of (w : World) (sessionId : string) : option chat_session_status :=
  option_map ChatSession.status (find (has_id sessionId) (chatSession (db w))).

(** The events delivered to a socket, oldest first. *)
Definition delivered (w : World) (socket : SocketId) : list ServerToClientEvents.t :=
  map snd (filter (fun d => Nat.eqb (fst d) socket) (emitted (io w))).

(** ** Sample worlds *)

Definition calm : Ext :=
  mkExt (fun _ => false)
        (fun n => String (ascii_of_nat (97 + n)) "-generated")
        (fun n => 1000 + Z.of_nat n)
        (fun _ => Some "hello")
        [].

Definition no_sockets : Io :=
  mkIo (fun _ => SocketData.mk None None) [] (fun _ => false) (fun _ => false) [].

Definition empty_world : World := mkWorld (mkDb [] []) no_sockets calm.

Definition world_with (sessions : list ChatSession.t)
    (messages : list ChatMessage.t) : World :=
  mkWorld (mkDb sessions messages) no_sockets calm.

(** Session ["s1"] of visitor ["v1"]. *)
Definition s1 (st : chat_session_status) : ChatSession.t :=
  ChatSession.mk "s1" "v1" st 1 2 None.

(** A later session ["s2"] of the same visitor. *)
Definition s2 (st : chat_session_status) : ChatSession.t :=
  ChatSession.mk "s2" "v1" st 3 4 None.

Definition anonymous : Handshake.t :=
  Handshake.mk None (Handshake.mk_fields None None).

Definition visitor (v : string) (requested : option string) : Handshake.t :=
  Handshake.mk (Some (Handshake.mk_fields (Some v) requested))
               (Handshake.mk_fields None None).

Definition say (sessionId : option string) (text : string) : ClientToServerEvents.t :=
  ClientToServerEvents.message
    (IncomingMessagePayload.mk sessionId (Some text) None).

(** Visitor ["v1"] has connected on socket 0 and was given the new session
    ["a-generated"]. *)
Definition one_tab : World :=
  run empty_world [connection 0%nat (visitor "v1" None)].

Definition oracle_down (e : Ext) : Ext :=
  mkExt (faults e) (uuids e) (dates e) (fun _ => None) (n8n_calls e).

Definition old_message (n : nat) : ChatMessage.t :=
  ChatMessage.mk (String (ascii_of_nat n) "-old") "a-generated" USER "earlier"
                 (Z.of_nat n).

(** The same, after a hundred messages, with the webhook out of order. *)
Definition long_session : World :=
  set_ext oracle_down
    (set_db (set_chatMessage (fun _ => map old_message (seq 1 100))) one_tab).

(** Two tabs of visitor ["v1"], sockets 0 and 1, both on session
    ["a-generated"]. *)
Definition two_tabs : World :=
  run empty_world [connection 0%nat (visitor "v1" None);
                   connection 1%nat (visitor "v1" None)].

(** The first tab has ended the session. *)
Definition ended : World :=
  step two_tabs
       (client 0%nat (ClientToServerEvents.end_chat (EndSessionPayload.mk None))).

Definition beat (sessionId : option string) : ClientToServerEvents.t :=
  ClientToServerEvents.heartbeat (HeartbeatPayload.mk sessionId).

(** ** The vocabulary of the properties *)

(** [a] comes no later than [b] in the order [le]. *)
Definition precedes {A} (le : A -> A -> bool) (a b : A) : Prop := le a b = true.

(** The repository answers its next [n] calls. *)
Definition answers (w : World) (n : nat) : Prop :=
  forall i, (i < n)%nat -> faults (ext w) i = false.

(** Step 1 in the words of the specification: a requested session id is
    given (a non-empty string), a session with that id exists and it is not
    CLOSED. *)
Definition reattachable (w : World) (requestedSessionId : option string)
    (s : ChatSession.t) : Prop :=
  exists r, requestedSessionId = Some r /\ r <> "" /\
            find (has_id r) (chatSession (db w)) = Some s /\
            ChatSession.status s <> CLOSED.

(** A session the visitor owns and that is not CLOSED. *)
Definition open_for (visitorId : string) (s : ChatSession.t) : Prop :=
  ChatSession.visitor_id s = visitorId /\ ChatSession.status s <> CLOSED.

(** The row step 4 creates in world [w]. *)
Definition created_session (w : World) (visitorId : string) : ChatSession.t :=
  ChatSession.mk (uuids (ext w) 0%nat) visitorId ACTIVE
                 (dates (ext w) 0%nat) (dates (ext w) 0%nat) None.

(** The SYSTEM message that records the closure. *)
Definition closure_message (w : World) (sessionId : string) : ChatMessage.t :=
  ChatMessage.mk (uuids (ext w) 0%nat) sessionId SYSTEM
                 "Chat session ended by user." (dates (ext w) 1%nat).

(** What a load of at most [limit] messages returns from tables [d]. *)
Definition history_rows (d : Db) (sessionId : string) (limit : nat)
    : list ChatMessageDto.t :=
  map mapMessage
      (firstn limit (orderBy message_created_at_asc
                       (filter (of_session sessionId) (chatMessage d)))).

Definition default_limit (limit : option nat) : nat :=
  match limit with Some n => n | None => 100%nat end.


(** The USER message the listener persists in world [w]. *)
Definition user_message (w : World) (sessionId content : string) : ChatMessage.t :=
  ChatMessage.mk (uuids (ext w) 0%nat) sessionId USER content
                 (dates (ext w) 0%nat).

(** The deliveries of [io.to(room).emit(ev)] in world [w]. *)
Definition fan_out (w : World) (room : string) (ev : ServerToClientEvents.t)
    : list (SocketId * ServerToClientEvents.t) :=
  map (fun m => (snd m, ev)) (filter (in_room room) (rooms (io w))).


(** The conditions under which the listener gets as far as calling the
    webhook: the session id resolves, the content is not blank, the session
    exists and is not CLOSED, and the four repository calls before the
    webhook go through. *)
Record reaches_oracle (socket : SocketId) (payload : IncomingMessagePayload.t)
    (w : World) (sessionId content : string) : Prop := {
  ro_session :
    nullish (IncomingMessagePayload.sessionId payload)
            (SocketData.sessionId (data (io w) socket)) = Some sessionId;
  ro_session_given : sessionId <> "";
  ro_content :
    exists text, IncomingMessagePayload.content payload = Some text /\
                 trim text = content;
  ro_content_given : content <> "";
  ro_open :
    exists s, find (has_id sessionId) (chatSession (db w)) = Some s /\
              ChatSession.status s <> CLOSED;
  ro_answers : answers w 4;
  ro_fresh :
    existsb (message_has_id (uuids (ext w) 0%nat)) (chatMessage (db w)) = false
}.

Definition is_error (d : SocketId * ServerToClientEvents.t) : bool :=
  match snd d with
  | ServerToClientEvents.error _ => true
  | _ => false
  end.

(** The events emitted between world [w] and a later world [w']. *)
Definition new_events (w w' : World) : list (SocketId * ServerToClientEvents.t) :=
  skipn (length (emitted (io w))) (emitted (io w')).

(** The [history] event of an attach, if any. *)
Definition replay (socket : SocketId) (h : list ChatMessageDto.t)
    : list (SocketId * ServerToClientEvents.t) :=
  match h with
  | [] => []
  | _ :: _ => [(socket, ServerToClientEvents.history h)]
  end.

(** The world step 4 leaves behind when it runs first thing in [w]. *)
Definition after_create (w : World) (v : string) : World :=
  mkWorld (mkDb (chatSession (db w) ++ [created_session w v]) (chatMessage (db w)))
          (io w)
          (take_date (take_uuid (take_fault (take_fault (ext w))))).

(** A transport attached to a session that did not exist before. *)
Definition attached_to_new_session (w w' : World) (socket : SocketId) : Prop :=
  exists s,
    SocketData.sessionId (data (io w') socket) = Some (ChatSession.id s) /\
    In s (chatSession (db w')) /\
    find (has_id (ChatSession.id s)) (chatSession (db w)) = None.

(** The session table after [chatSession.update] has set the timestamp and
    the status of [sessionId]. *)
Definition touched (sessionId : string) (t : Z) (st : chat_session_status)
    (rows : list ChatSession.t) : list ChatSession.t :=
  map (fun r => if has_id sessionId r then touch t st r else r) rows.

(** The primary key of the session table. *)
Definition unique_ids (w : World) : Prop :=
  NoDup (map ChatSession.id (chatSession (db w))).

Definition is_heartbeat (i : Input) : bool :=
  match i with
  | client _ (ClientToServerEvents.heartbeat _) => true
  | _ => false
  end.

(** The BOT message the listener persists in world [w] for the reply of the
    webhook. *)
Definition bot_message (w : World) (sessionId aiReply : string) : ChatMessage.t :=
  ChatMessage.mk (uuids (ext w) 1%nat) sessionId BOT aiReply
                 (dates (ext w) 2%nat).

(** The conditions under which the listener persists the USER message: the
    session id resolves, the content is not blank, the session exists and is
    not CLOSED, the lookup and the insert go through. *)
Record persists_user_message (socket : SocketId)
    (payload : IncomingMessagePayload.t) (w : World)
    (sessionId content : string) : Prop := {
  pu_session :
    nullish (IncomingMessagePayload.sessionId payload)
            (SocketData.sessionId (data (io w) socket)) = Some sessionId;
  pu_session_given : sessionId <> "";
  pu_content :
    exists text, IncomingMessagePayload.content payload = Some text /\
                 trim text = content;
  pu_content_given : content <> "";
  pu_open :
    exists s, find (has_id sessionId) (chatSession (db w)) = Some s /\
              ChatSession.status s <> CLOSED;
  pu_answers : answers w 2;
  pu_fresh :
    existsb (message_has_id (uuids (ext w) 0%nat)) (chatMessage (db w)) = false
}.

(** The [error] event of a failed attach. *)
Definition attach_error (socket : SocketId) : SocketId * ServerToClientEvents.t :=
  (socket, ServerToClientEvents.error
             "Unable to start chat session. Please refresh and try again.").

(** An event for [socket] that is not an [error]. *)
Definition announcement (socket : SocketId)
    (d : SocketId * ServerToClientEvents.t) : Prop :=
  fst d = socket /\ is_error d = false.

(** Steps 1 and 2 of the resolver do not return: no session id is requested,
    or the lookup answers and finds no session or a CLOSED one.  [wa] is the
    world in which step 3 then starts. *)
Definition falls_through (req : option string) (w wa : World) : Prop :=
  (truthy req = false /\ wa = w) \/
  (exists r, req = Some r /\ r <> "" /\ faults (ext w) 0%nat = false /\
             (forall s0, find (has_id r) (chatSession (db w)) = Some s0 ->
                         ChatSession.status s0 = CLOSED) /\
             wa = set_ext take_fault w).

(** A delivery that the [message] listener of [socket] may make when the
    effective session id is [room]: an event for the sender, or a [message]
    event for a socket in the room of that session. *)
Definition sender_or_room (w : World) (socket : SocketId) (room : option string)
    (d : SocketId * ServerToClientEvents.t) : Prop :=
  fst d = socket \/
  exists sessionId m,
    room = Some sessionId /\ snd d = ServerToClientEvents.message m /\
    In (sessionId, fst d) (rooms (io w)).

(** What never changes in a session row. *)
Definition identity_of (s : ChatSession.t)
    : string * string * Z * option string :=
  (ChatSession.id s, ChatSession.visitor_id s, ChatSession.created_at s,
   ChatSession.metadata s).

(** The primary key of the message table. *)
Definition unique_message_ids (w : World) : Prop :=
  NoDup (map ChatMessage.id (chatMessage (db w))).

(** * Properties *)

(** ** Running the monad by hand *)

Ltac open_world w :=
  let ss := fresh "sessions" in
  let ms := fresh "messages" in
  let d := fresh "sockdata" in
  let r := fresh "members" in
  let c := fresh "conn" in
  let l := fresh "listen" in
  let e := fresh "sent" in
  let f := fresh "fault" in
  let u := fresh "gen" in
  let t := fresh "clock" in
  let n := fresh "reply" in
  let q := fresh "calls" in
  destruct w as [[ss ms] [d r c l e] [f u t n q]];
  cbn [db io ext chatSession chatMessage data rooms connected listening emitted
       faults uuids dates n8n_replies n8n_calls] in *.

Ltac js :=
  cbv beta iota delta
    [on_message on_heartbeat handleEndSession handleConnection ensureSession
     getHistory registerSocketEvents
     chatSession_findUnique chatSession_findFirst chatSession_update
     chatSession_create chatMessage_create chatMessage_findMany
     prisma uuid new_Date sendToN8n
     socket_emit io_to_emit socket_join socket_leave socket_disconnect
     set_data_sessionId set_data_visitorId socket_on
     bind ret throw try_catch get modify exec
     set_db set_io set_ext set_chatSession set_chatMessage
     take_fault take_uuid take_date take_reply advance];
  cbn [db io ext chatSession chatMessage data rooms connected listening emitted
       faults uuids dates n8n_replies n8n_calls fst snd if_truthy].

Ltac settled := repeat split; rewrite <- ?app_assoc; reflexivity.

Lemma if_truthy_some {A} (s : string) (yes : string -> A) (no : A) :
  s <> "" -> if_truthy (Some s) yes no = yes s.
Proof. destruct s; [congruence | reflexivity]. Qed.

Lemma if_truthy_falsy {A} (v : option string) (yes : string -> A) (no : A) :
  truthy v = false -> if_truthy v yes no = no.
Proof. destruct v as [[|c s]|]; [reflexivity | discriminate | reflexivity]. Qed.

Lemma truthy_some (s : string) : truthy (Some s) = true <-> s <> "".
Proof. destruct s; cbn; split; congruence. Qed.

(** ** Inbound messages that are dropped or refused *)

(** C5: a [message] event that carries no session id, on a socket that has
    none bound either, emits exactly one [error] event to the caller and
    changes nothing else: no row is written and the socket stays as it
    was. *)
Theorem message_without_session (socket : SocketId)
    (payload : IncomingMessagePayload.t) (w : World) :
  IncomingMessagePayload.sessionId payload = None ->
  SocketData.sessionId (data (io w) socket) = None ->
  exists w',
    on_message socket payload w = (Ok tt, w') /\
    db w' = db w /\ ext w' = ext w /\
    data (io w') = data (io w) /\ rooms (io w') = rooms (io w) /\
    connected (io w') = connected (io w) /\
    listening (io w') = listening (io w) /\
    emitted (io w') =
      emitted (io w) ++
      [(socket, ServerToClientEvents.error
                  "Session not established yet. Please wait.")].
Proof.
  intros Hp Hs. open_world w. js. rewrite Hp, Hs. cbn.
  eexists. split; [reflexivity|]. cbn. repeat split.
Qed.

Lemma message_without_session_witness :
  exists w',
    on_message 0%nat (IncomingMessagePayload.mk None (Some "hi") None) empty_world
      = (Ok tt, w') /\
    db w' = db empty_world /\ ext w' = ext empty_world /\
    data (io w') = data (io empty_world) /\
    rooms (io w') = rooms (io empty_world) /\
    connected (io w') = connected (io empty_world) /\
    listening (io w') = listening (io empty_world) /\
    emitted (io w') =
      emitted (io empty_world) ++
      [(0%nat, ServerToClientEvents.error
                 "Session not established yet. Please wait.")].
Proof.
  apply (message_without_session 0%nat
           (IncomingMessagePayload.mk None (Some "hi") None) empty_world);
    reflexivity.
Defined.

(** C4: a [message] event with a resolvable session id whose content is
    absent or trims to the empty string is a no-op: the listener returns
    with the world exactly as it found it, so nothing is persisted, nothing
    is emitted and no session changes. *)
Theorem empty_message_is_dropped (socket : SocketId)
    (payload : IncomingMessagePayload.t) (w : World) (sessionId : string) :
  nullish (IncomingMessagePayload.sessionId payload)
          (SocketData.sessionId (data (io w) socket)) = Some sessionId ->
  sessionId <> "" ->
  (IncomingMessagePayload.content payload = None \/
   exists text, IncomingMessagePayload.content payload = Some text /\
                trim text = "") ->
  on_message socket payload w = (Ok tt, w).
Proof.
  intros Hid Hne Hc. open_world w. js. rewrite Hid, if_truthy_some by assumption.
  destruct Hc as [-> | (text & -> & Ht)]; cbn; [|rewrite Ht]; reflexivity.
Qed.

Lemma empty_message_is_dropped_witness :
  on_message 0%nat (IncomingMessagePayload.mk (Some "s1") (Some "  ") None)
             empty_world
  = (Ok tt, empty_world).
Proof.
  apply (empty_message_is_dropped 0%nat _ empty_world "s1").
  - reflexivity.
  - discriminate.
  - right. exists "  ". split; reflexivity.
Defined.

(** C3: a [message] event with a resolvable session id and content that
    is not empty after trimming, when the repository answers the lookup:
    if no session has that id, the caller gets the "Session expired" [error]
    followed by a [sessionClosed] notice; if the session is CLOSED, the
    caller gets a [sessionClosed] notice and nothing else.  Either way no row
    is written and the sockets, their data and the rooms stay as they
    were. *)
Theorem message_to_missing_or_closed_session (socket : SocketId)
    (payload : IncomingMessagePayload.t) (w : World)
    (sessionId text : string) :
  nullish (IncomingMessagePayload.sessionId payload)
          (SocketData.sessionId (data (io w) socket)) = Some sessionId ->
  sessionId <> "" ->
  IncomingMessagePayload.content payload = Some text ->
  trim text <> "" ->
  faults (ext w) 0%nat = false ->
  let w' := exec (on_message socket payload) w in
  (find (has_id sessionId) (chatSession (db w)) = None ->
   db w' = db w /\
   data (io w') = data (io w) /\ rooms (io w') = rooms (io w) /\
   connected (io w') = connected (io w) /\
   listening (io w') = listening (io w) /\
   emitted (io w') =
     emitted (io w) ++
     [(socket, ServerToClientEvents.error
                 "Session expired. Please refresh the page.");
      (socket, ServerToClientEvents.sessionClosed sessionId
                 "Session not found. Starting new session...")]) /\
  (forall s,
     find (has_id sessionId) (chatSession (db w)) = Some s ->
     ChatSession.status s = CLOSED ->
     db w' = db w /\
     data (io w') = data (io w) /\ rooms (io w') = rooms (io w) /\
     connected (io w') = connected (io w) /\
     listening (io w') = listening (io w) /\
     emitted (io w') =
       emitted (io w) ++
       [(socket, ServerToClientEvents.sessionClosed sessionId
                   "Session was closed. Please start a new chat.")]).
Proof.
  intros Hid Hne Hc Ht Hf w'. subst w'. open_world w.
  split; [intros Hfind | intros s Hfind Hst];
    js; rewrite Hid, if_truthy_some by assumption;
    rewrite Hc; cbn [option_map]; rewrite if_truthy_some by assumption.
  - js. rewrite Hf. js. rewrite Hfind. js. settled.
  - js. rewrite Hf. js. rewrite Hfind. js. rewrite Hst. js. settled.
Qed.

Lemma message_to_missing_or_closed_session_witness :
  let w := set_db (set_chatSession (fun _ =>
             [ChatSession.mk "s1" "v1" CLOSED 1 2 None])) empty_world in
  let w' := exec (on_message 0%nat
                    (IncomingMessagePayload.mk (Some "s1") (Some "x") None)) w in
  emitted (io w') =
    [(0%nat, ServerToClientEvents.sessionClosed "s1"
               "Session was closed. Please start a new chat.")] /\
  db w' = db w.
Proof.
  intros w w'.
  destruct (message_to_missing_or_closed_session 0%nat
              (IncomingMessagePayload.mk (Some "s1") (Some "x") None) w "s1" "x")
    as [_ Hclosed]; try reflexivity; try discriminate.
  destruct (Hclosed (ChatSession.mk "s1" "v1" CLOSED 1 2 None))
    as (Hdb & _ & _ & _ & _ & Hsent); try reflexivity.
  split; [exact Hsent | exact Hdb].
Defined.

(** ** [orderBy] *)

Section OrderBy.
Context {A : Type}.
Variable le : A -> A -> bool.

Lemma insert_by_perm (x : A) (l : list A) :
  Permutation (insert_by le x l) (x :: l).
Proof.
  induction l as [|y r IH]; cbn.
  - apply Permutation_refl.
  - destruct (le x y).
    + apply Permutation_refl.
    + eapply perm_trans; [apply perm_skip, IH | apply perm_swap].
Qed.

Lemma orderBy_perm (l : list A) : Permutation (orderBy le l) l.
Proof.
  induction l as [|x r IH]; cbn.
  - apply perm_nil.
  - eapply perm_trans; [apply insert_by_perm | apply perm_skip, IH].
Qed.

Lemma orderBy_In (x : A) (l : list A) : In x (orderBy le l) <-> In x l.
Proof.
  split; apply Permutation_in;
    [apply orderBy_perm | apply Permutation_sym, orderBy_perm].
Qed.

Lemma orderBy_length (l : list A) : length (orderBy le l) = length l.
Proof. apply Permutation_length, orderBy_perm. Qed.

Hypothesis le_total : forall a b, le a b = true \/ le b a = true.
Hypothesis le_trans : forall a b c, le a b = true -> le b c = true -> le a c = true.

Lemma insert_by_sorted (x : A) (l : list A) :
  StronglySorted (precedes le) l -> StronglySorted (precedes le) (insert_by le x l).
Proof.
  induction 1 as [|y r Hr IH Hy]; cbn.
  - repeat constructor.
  - destruct (le x y) eqn:Hxy.
    + constructor.
      * constructor; assumption.
      * constructor; [exact Hxy|].
        eapply Forall_impl; [|exact Hy].
        intros z Hz. exact (le_trans _ _ _ Hxy Hz).
    + constructor; [exact IH|].
      assert (Hyx : precedes le y x)
        by (destruct (le_total x y) as [H|H]; [congruence | exact H]).
      eapply Permutation_Forall;
        [apply Permutation_sym, insert_by_perm|].
      constructor; assumption.
Qed.

Lemma orderBy_sorted (l : list A) : StronglySorted (precedes le) (orderBy le l).
Proof.
  induction l as [|x r IH]; cbn.
  - constructor.
  - apply insert_by_sorted, IH.
Qed.

(** The first row of the ordered result is a row of the table that
    precedes every other one. *)
Lemma orderBy_first (l : list A) (x : A) :
  hd_error (orderBy le l) = Some x ->
  In x l /\ forall y, In y l -> le x y = true.
Proof.
  intros Hhd.
  pose proof (orderBy_sorted l) as Hs.
  destruct (orderBy le l) as [|z r] eqn:Ho; [discriminate|].
  injection Hhd as ->.
  assert (Hin : forall y, In y l <-> In y (x :: r))
    by (intros y; rewrite <- Ho; symmetry; apply orderBy_In).
  split.
  - apply Hin. left. reflexivity.
  - intros y Hy. apply Hin in Hy. destruct Hy as [<- | Hy].
    + destruct (le_total x x); assumption.
    + inversion Hs as [|? ? _ Hall]; subst.
      rewrite Forall_forall in Hall. apply Hall, Hy.
Qed.

Lemma orderBy_none (l : list A) :
  hd_error (orderBy le l) = None -> l = [].
Proof.
  intros Hhd. pose proof (orderBy_length l) as Hlen.
  destruct (orderBy le l); [|discriminate].
  destruct l; [reflexivity | discriminate].
Qed.
End OrderBy.

Lemma session_order_total (a b : ChatSession.t) :
  session_created_at_desc a b = true \/ session_created_at_desc b a = true.
Proof. unfold session_created_at_desc. lia. Qed.

Lemma session_order_trans (a b c : ChatSession.t) :
  session_created_at_desc a b = true -> session_created_at_desc b c = true ->
  session_created_at_desc a c = true.
Proof. unfold session_created_at_desc. lia. Qed.



Lemma status_eqb_CLOSED (st : chat_session_status) :
  status_eqb st CLOSED = true <-> st = CLOSED.
Proof. destruct st; cbn; split; congruence. Qed.

Lemma not_CLOSED (st : chat_session_status) :
  st <> CLOSED <-> status_eqb st CLOSED = false.
Proof. destruct st; cbn; split; congruence. Qed.

Lemma open_session_of_spec (v : string) (s : ChatSession.t) :
  open_session_of v s = true <->
  ChatSession.visitor_id s = v /\ ChatSession.status s <> CLOSED.
Proof.
  unfold open_session_of. rewrite andb_true_iff, String.eqb_eq, negb_true_iff.
  rewrite <- not_CLOSED. reflexivity.
Qed.

(** ** The session resolver *)

Lemma ensureSession_falsy (v : string) (req : option string) (w : World) :
  truthy req = false -> ensureSession v req w = ensureSession v None w.
Proof.
  intros H. unfold ensureSession. cbv zeta. rewrite if_truthy_falsy by exact H.
  reflexivity.
Qed.

Lemma ensureSession_skip (v r : string) (w : World) :
  r <> "" -> faults (ext w) 0%nat = false ->
  (forall s, find (has_id r) (chatSession (db w)) = Some s ->
             ChatSession.status s = CLOSED) ->
  ensureSession v (Some r) w = ensureSession v None (set_ext take_fault w).
Proof.
  intros Hr Hf Hc. unfold ensureSession. cbv zeta.
  rewrite if_truthy_some by exact Hr. open_world w. js. rewrite Hf. js.
  destruct (find (has_id r) sessions) as [s|] eqn:Hfind; [|reflexivity].
  rewrite (Hc s eq_refl). reflexivity.
Qed.

Lemma ensureSession_reuse (v r : string) (w : World) (s : ChatSession.t) :
  r <> "" -> faults (ext w) 0%nat = false ->
  find (has_id r) (chatSession (db w)) = Some s ->
  ChatSession.status s <> CLOSED ->
  ensureSession v (Some r) w = (Ok s, set_ext take_fault w).
Proof.
  intros Hr Hf Hfind Hst. unfold ensureSession. cbv zeta.
  rewrite if_truthy_some by exact Hr. open_world w. js. rewrite Hf. js. rewrite Hfind.
  apply not_CLOSED in Hst. rewrite Hst. reflexivity.
Qed.

Lemma ensureSession_converge (v : string) (w : World) (e : ChatSession.t) :
  faults (ext w) 0%nat = false ->
  hd_error (orderBy session_created_at_desc
              (filter (open_session_of v) (chatSession (db w)))) = Some e ->
  ensureSession v None w = (Ok e, set_ext take_fault w).
Proof.
  intros Hf Hhd. open_world w. js. rewrite Hf. js. rewrite Hhd. reflexivity.
Qed.

Lemma ensureSession_create (v : string) (w : World) :
  faults (ext w) 0%nat = false -> faults (ext w) 1%nat = false ->
  filter (open_session_of v) (chatSession (db w)) = [] ->
  existsb (has_id (uuids (ext w) 0%nat)) (chatSession (db w)) = false ->
  exists w',
    ensureSession v None w = (Ok (created_session w v), w') /\
    chatSession (db w') = chatSession (db w) ++ [created_session w v] /\
    chatMessage (db w') = chatMessage (db w) /\
    io w' = io w.
Proof.
  intros Hf0 Hf1 Hnone Hfree. open_world w. js. rewrite Hf0. js.
  rewrite Hnone. cbn [orderBy fold_right hd_error]. js. rewrite Hf1. js. rewrite Hfree. js.
  eexists. split; [reflexivity|]. settled.
Qed.

Lemma not_reattachable_cases (w : World) (req : option string) :
  (forall s, ~ reattachable w req s) ->
  truthy req = false \/
  exists r, req = Some r /\ r <> "" /\
            forall s, find (has_id r) (chatSession (db w)) = Some s ->
                      ChatSession.status s = CLOSED.
Proof.
  intros Hno. destruct req as [r|]; [|left; reflexivity].
  destruct (truthy (Some r)) eqn:Ht; [|left; reflexivity].
  right. exists r. apply truthy_some in Ht. repeat split; [exact Ht|].
  intros s Hfind. destruct (ChatSession.status s) eqn:Hst; [|reflexivity].
  exfalso. apply (Hno s). exists r. repeat split; try assumption. congruence.
Qed.

Lemma open_sessions_first (v : string) (rows : list ChatSession.t)
    (e : ChatSession.t) :
  hd_error (orderBy session_created_at_desc (filter (open_session_of v) rows))
    = Some e ->
  In e rows /\ open_for v e /\
  forall s, In s rows -> open_for v s ->
            ChatSession.created_at s <= ChatSession.created_at e.
Proof.
  intros Hhd.
  apply (orderBy_first _ session_order_total session_order_trans) in Hhd.
  destruct Hhd as [Hin Hmax]. apply filter_In in Hin. destruct Hin as [Hin Ho].
  repeat split; try assumption; try (apply open_session_of_spec in Ho; tauto).
  intros s Hs Hopen.
  assert (Hle : session_created_at_desc e s = true).
  { apply Hmax, filter_In. split; [exact Hs|]. apply open_session_of_spec, Hopen. }
  unfold session_created_at_desc in Hle. lia.
Qed.

Lemma no_open_session (v : string) (rows : list ChatSession.t) :
  filter (open_session_of v) rows = [] <->
  forall s, In s rows -> ~ open_for v s.
Proof.
  split.
  - intros Hnil s Hs Hopen.
    assert (Hin : In s (filter (open_session_of v) rows))
      by (apply filter_In; split; [exact Hs | apply open_session_of_spec, Hopen]).
    rewrite Hnil in Hin. exact Hin.
  - intros Hno. destruct (filter (open_session_of v) rows) as [|s r] eqn:Hf;
      [reflexivity|].
    assert (Hin : In s (filter (open_session_of v) rows))
      by (rewrite Hf; left; reflexivity).
    apply filter_In in Hin. destruct Hin as [Hs Ho].
    exfalso. apply (Hno s Hs). apply open_session_of_spec, Ho.
Qed.

Lemma created_session_take_fault (w : World) (v : string) :
  created_session (set_ext take_fault w) v = created_session w v.
Proof. reflexivity. Qed.

(** Whatever the repository does, the resolver either leaves the tables as
    they are or appends the row of step 4. *)
Lemma ensureSession_none_writes (v : string) (w : World) :
  db (exec (ensureSession v None) w) = db w \/
  (filter (open_session_of v) (chatSession (db w)) = [] /\
   exists w',
     ensureSession v None w = (Ok (created_session w v), w') /\
     chatSession (db w') = chatSession (db w) ++ [created_session w v] /\
     chatMessage (db w') = chatMessage (db w)).
Proof.
  open_world w. js.
  destruct (fault 0%nat) eqn:Hf0; js; [left; reflexivity|].
  destruct (hd_error (orderBy session_created_at_desc
                        (filter (open_session_of v) sessions))) as [e|] eqn:Hhd;
    js; [left; reflexivity|].
  apply orderBy_none in Hhd.
  destruct (fault 1%nat) eqn:Hf1; js; [left; reflexivity|].
  destruct (existsb (has_id (gen 0%nat)) sessions) eqn:Hex; js;
    [left; reflexivity|].
  right. split; [exact Hhd|]. eexists. split; [reflexivity|]. settled.
Qed.

Lemma ensureSession_writes (v : string) (req : option string) (w : World) :
  db (exec (ensureSession v req) w) = db w \/
  ((forall s, ~ reattachable w req s) /\
   (forall s, In s (chatSession (db w)) -> ~ open_for v s) /\
   exists w',
     ensureSession v req w = (Ok (created_session w v), w') /\
     chatSession (db w') = chatSession (db w) ++ [created_session w v] /\
     chatMessage (db w') = chatMessage (db w)).
Proof.
  unfold exec. destruct (truthy req) eqn:Ht.
  - destruct req as [r|]; [|discriminate]. apply truthy_some in Ht.
    destruct (faults (ext w) 0%nat) eqn:Hf.
    { left. unfold ensureSession. cbv zeta. rewrite if_truthy_some by exact Ht.
      open_world w. js. rewrite Hf. reflexivity. }
    destruct (find (has_id r) (chatSession (db w))) as [s|] eqn:Hfind.
    + destruct (ChatSession.status s) eqn:Hst.
      * left.
        rewrite (ensureSession_reuse v r w s) by (try assumption; congruence).
        reflexivity.
      * rewrite ensureSession_skip; try assumption;
          [| intros s' Hs'; congruence].
        destruct (ensureSession_none_writes v (set_ext take_fault w))
          as [Hsame | (Hnone & w' & Hrun & Hs & Hm)].
        { left. unfold exec in *. exact Hsame. }
        right. split; [|split].
        -- intros s' (r' & Hr' & _ & Hfind' & Hopen). congruence.
        -- apply no_open_session. exact Hnone.
        -- exists w'. repeat split; assumption.
    + rewrite ensureSession_skip; try assumption; [| intros s' Hs'; congruence].
      destruct (ensureSession_none_writes v (set_ext take_fault w))
        as [Hsame | (Hnone & w' & Hrun & Hs & Hm)].
      { left. unfold exec in *. exact Hsame. }
      right. split; [|split].
      * intros s' (r' & Hr' & _ & Hfind' & Hopen). congruence.
      * apply no_open_session. exact Hnone.
      * exists w'. repeat split; assumption.
  - rewrite ensureSession_falsy by exact Ht.
    destruct (ensureSession_none_writes v w)
      as [Hsame | (Hnone & w' & Hrun & Hs & Hm)]; [left; exact Hsame|].
    right. split; [|split].
    + intros s' (r' & Hr' & Hne & _). subst req.
      apply truthy_some in Hne. congruence.
    + apply no_open_session. exact Hnone.
    + exists w'. repeat split; assumption.
Qed.

(** C2: the resolver follows the four steps, first match wins.  (1) A
    requested session that exists and is not CLOSED is returned as it is.
    (2, 3) Otherwise, a requested CLOSED session being ignored, the visitor's
    most recently created session that is not CLOSED is returned when there
    is one.  (4) Otherwise a new ACTIVE session owned by the visitor is
    appended and returned.  Only step 4 writes: in every run, whatever the
    repository does, the tables are left as they were unless the run is a
    step 4 that appended its row. *)
Theorem ensureSession_first_match_wins (visitorId : string)
    (requestedSessionId : option string) (w : World) :
  (forall s,
     answers w 1 -> reattachable w requestedSessionId s ->
     exists w',
       ensureSession visitorId requestedSessionId w = (Ok s, w') /\
       db w' = db w) /\
  (answers w 2 ->
   (forall s, ~ reattachable w requestedSessionId s) ->
   (exists s, In s (chatSession (db w)) /\ open_for visitorId s) ->
   exists e w',
     ensureSession visitorId requestedSessionId w = (Ok e, w') /\
     db w' = db w /\
     In e (chatSession (db w)) /\ open_for visitorId e /\
     forall s, In s (chatSession (db w)) -> open_for visitorId s ->
               ChatSession.created_at s <= ChatSession.created_at e) /\
  (answers w 3 ->
   (forall s, ~ reattachable w requestedSessionId s) ->
   (forall s, In s (chatSession (db w)) -> ~ open_for visitorId s) ->
   existsb (has_id (uuids (ext w) 0%nat)) (chatSession (db w)) = false ->
   exists w',
     ensureSession visitorId requestedSessionId w
       = (Ok (created_session w visitorId), w') /\
     ChatSession.status (created_session w visitorId) = ACTIVE /\
     ChatSession.visitor_id (created_session w visitorId) = visitorId /\
     chatSession (db w') = chatSession (db w) ++ [created_session w visitorId] /\
     chatMessage (db w') = chatMessage (db w)) /\
  (db (exec (ensureSession visitorId requestedSessionId) w) = db w \/
   ((forall s, ~ reattachable w requestedSessionId s) /\
    (forall s, In s (chatSession (db w)) -> ~ open_for visitorId s) /\
    exists w',
      ensureSession visitorId requestedSessionId w
        = (Ok (created_session w visitorId), w') /\
      chatSession (db w') = chatSession (db w) ++ [created_session w visitorId] /\
      chatMessage (db w') = chatMessage (db w))).
Proof.
  repeat apply conj.
  - intros s Ha (r & -> & Hr & Hfind & Hst).
    exists (set_ext take_fault w). split; [|reflexivity].
    apply ensureSession_reuse; try assumption. apply Ha. lia.
  - intros Ha Hno (s0 & Hs0 & Ho0).
    assert (Hfirst : forall w0, db w0 = db w -> faults (ext w0) 0%nat = false ->
              exists e, ensureSession visitorId None w0
                          = (Ok e, set_ext take_fault w0) /\
                        In e (chatSession (db w)) /\ open_for visitorId e /\
                        forall s, In s (chatSession (db w)) -> open_for visitorId s ->
                          ChatSession.created_at s <= ChatSession.created_at e).
    { intros w0 Hdb Hf.
      destruct (hd_error (orderBy session_created_at_desc
                  (filter (open_session_of visitorId) (chatSession (db w)))))
        as [e|] eqn:Hhd.
      - exists e. split.
        + apply ensureSession_converge; [exact Hf | rewrite Hdb; exact Hhd].
        + apply open_sessions_first, Hhd.
      - apply orderBy_none in Hhd.
        exfalso. exact (proj1 (no_open_session _ _) Hhd s0 Hs0 Ho0). }
    destruct (not_reattachable_cases w requestedSessionId Hno)
      as [Hfalsy | (r & -> & Hr & Hclosed)].
    + rewrite ensureSession_falsy by exact Hfalsy.
      destruct (Hfirst w eq_refl) as (e & Hrun & He); [apply Ha; lia|].
      exists e, (set_ext take_fault w). split; [exact Hrun|].
      split; [reflexivity | exact He].
    + rewrite ensureSession_skip; try assumption; [|apply Ha; lia].
      destruct (Hfirst (set_ext take_fault w) eq_refl) as (e & Hrun & He).
      { cbn. apply (Ha 1%nat). lia. }
      exists e, (set_ext take_fault (set_ext take_fault w)).
      split; [exact Hrun|]. split; [reflexivity | exact He].
  - intros Ha Hno Hnone Hfree. apply no_open_session in Hnone.
    destruct (not_reattachable_cases w requestedSessionId Hno)
      as [Hfalsy | (r & -> & Hr & Hclosed)].
    + rewrite ensureSession_falsy by exact Hfalsy.
      destruct (ensureSession_create visitorId w)
        as (w' & Hrun & Hs & Hm & _); try assumption; try (apply Ha; lia).
      exists w'. repeat split; assumption.
    + rewrite ensureSession_skip; try assumption; [|apply Ha; lia].
      destruct (ensureSession_create visitorId (set_ext take_fault w))
        as (w' & Hrun & Hs & Hm & _); try assumption.
      { cbn. apply (Ha 1%nat). lia. }
      { cbn. apply (Ha 2%nat). lia. }
      exists w'. repeat split; assumption.
  - apply ensureSession_writes.
Qed.

Lemma ensureSession_first_match_wins_witness :
  (exists w',
     ensureSession "v1" (Some "s1") (world_with [s1 ACTIVE] [])
       = (Ok (s1 ACTIVE), w') /\
     db w' = db (world_with [s1 ACTIVE] [])) /\
  (exists e w',
     ensureSession "v1" (Some "s1") (world_with [s1 CLOSED; s2 ACTIVE] [])
       = (Ok e, w') /\
     db w' = db (world_with [s1 CLOSED; s2 ACTIVE] [])) /\
  (exists w',
     ensureSession "v1" (Some "s1") (world_with [s1 CLOSED] [])
       = (Ok (created_session (world_with [s1 CLOSED] []) "v1"), w') /\
     chatSession (db w')
       = [s1 CLOSED; created_session (world_with [s1 CLOSED] []) "v1"]).
Proof.
  split; [|split].
  - apply (ensureSession_first_match_wins "v1" (Some "s1")
             (world_with [s1 ACTIVE] [])).
    + intros i _. reflexivity.
    + exists "s1". repeat split; discriminate.
  - destruct (ensureSession_first_match_wins "v1" (Some "s1")
                (world_with [s1 CLOSED; s2 ACTIVE] []))
      as (_ & Hconverge & _).
    destruct Hconverge as (e & w' & Hrun & Hdb & _).
    + intros i _. reflexivity.
    + intros s (r & Hr & _ & Hfind & Hst). injection Hr as <-.
      cbn in Hfind. injection Hfind as <-. apply Hst. reflexivity.
    + exists (s2 ACTIVE). split; [right; left; reflexivity|].
      split; [reflexivity | discriminate].
    + exists e, w'. split; assumption.
  - destruct (ensureSession_first_match_wins "v1" (Some "s1")
                (world_with [s1 CLOSED] []))
      as (_ & _ & Hcreate & _).
    destruct Hcreate as (w' & Hrun & _ & _ & Hs & _).
    + intros i _. reflexivity.
    + intros s (r & Hr & _ & Hfind & Hst). injection Hr as <-.
      cbn in Hfind. injection Hfind as <-. apply Hst. reflexivity.
    + intros s [<- | []] [_ Hst]. apply Hst. reflexivity.
    + reflexivity.
    + exists w'. split; assumption.
Defined.

(** ** Ending a session *)

Lemma find_touched (i : string) (t : Z) (st : chat_session_status)
    (rows : list ChatSession.t) :
  find (has_id i)
       (map (fun r => if has_id i r then touch t st r else r) rows)
  = option_map (touch t st) (find (has_id i) rows).
Proof.
  induction rows as [|r rows IH]; cbn; [reflexivity|].
  destruct (has_id i r) eqn:Hr; cbn.
  - unfold has_id in *. cbn. rewrite Hr. reflexivity.
  - rewrite Hr. exact IH.
Qed.

Lemma find_other_touched (i j : string) (t : Z) (st : chat_session_status)
    (rows : list ChatSession.t) :
  j <> i ->
  find (has_id j)
       (map (fun r => if has_id i r then touch t st r else r) rows)
  = find (has_id j) rows.
Proof.
  intros Hji. induction rows as [|r rows IH]; cbn; [reflexivity|].
  destruct (has_id i r) eqn:Hr.
  - assert (Hj : has_id j r = false).
    { unfold has_id in *. apply String.eqb_eq in Hr.
      apply String.eqb_neq. congruence. }
    unfold has_id at 1. cbn. fold (has_id j r). rewrite Hj. exact IH.
  - destruct (has_id j r); [reflexivity | exact IH].
Qed.

Lemma find_touched_some (i : string) (t : Z) (st : chat_session_status)
    (rows : list ChatSession.t) (s : ChatSession.t) :
  find (has_id i) rows = Some s ->
  find (has_id i)
       (map (fun r => if has_id i r then touch t st r else r) rows)
  = Some (touch t st s).
Proof. intros H. rewrite find_touched, H. reflexivity. Qed.

(** C8: [endSession] and [end_chat] run the same [handleEndSession].  With
    no resolvable session id it does nothing.  With one, when the update and
    the insert both go through, the row of the session has status CLOSED and
    the current time as [last_active_at], its other fields being what they
    were; the SYSTEM message is appended, the caller gets one [sessionClosed]
    event, is no longer in the room of the session (every other membership
    is as before), has no bound session id any more, and stays connected.
    When the update or the insert rejects, the caller gets one [error] event
    and its data and rooms are left as they were. *)
Theorem end_session_unified (socket : SocketId) (payload : EndSessionPayload.t)
    (w : World) :
  registerSocketEvents socket (ClientToServerEvents.endSession payload) w
    = handleEndSession socket payload w /\
  registerSocketEvents socket (ClientToServerEvents.end_chat payload) w
    = handleEndSession socket payload w /\
  (truthy (nullish (EndSessionPayload.sessionId payload)
                   (SocketData.sessionId (data (io w) socket))) = false ->
   handleEndSession socket payload w = (Ok tt, w)) /\
  (forall sessionId,
     nullish (EndSessionPayload.sessionId payload)
             (SocketData.sessionId (data (io w) socket)) = Some sessionId ->
     sessionId <> "" ->
     let w' := exec (handleEndSession socket payload) w in
     (forall s,
        answers w 2 ->
        find (has_id sessionId) (chatSession (db w)) = Some s ->
        existsb (message_has_id (uuids (ext w) 0%nat)) (chatMessage (db w)) = false ->
        find (has_id sessionId) (chatSession (db w'))
          = Some (ChatSession.mk (ChatSession.id s) (ChatSession.visitor_id s)
                                 CLOSED (ChatSession.created_at s)
                                 (dates (ext w) 0%nat)
                                 (ChatSession.metadata s)) /\
        (forall other, other <> sessionId ->
           find (has_id other) (chatSession (db w'))
             = find (has_id other) (chatSession (db w))) /\
        chatMessage (db w') =
          chatMessage (db w) ++
          [ChatMessage.mk (uuids (ext w) 0%nat) sessionId SYSTEM
                          "Chat session ended by user." (dates (ext w) 1%nat)] /\
        emitted (io w') =
          emitted (io w) ++
          [(socket, ServerToClientEvents.sessionClosed sessionId
                      "Session ended successfully. You can start a new conversation.")] /\
        data (io w') =
          upd socket
              (SocketData.mk None (SocketData.visitorId (data (io w) socket)))
              (data (io w)) /\
        rooms (io w') =
          filter (fun m => negb (is_member sessionId socket m)) (rooms (io w)) /\
        connected (io w') = connected (io w) /\
        listening (io w') = listening (io w) /\
        SocketData.sessionId (data (io w') socket) = None /\
        SocketData.visitorId (data (io w') socket)
          = SocketData.visitorId (data (io w) socket) /\
        (forall k, k <> socket -> data (io w') k = data (io w) k) /\
        ~ In (sessionId, socket) (rooms (io w')) /\
        (forall room k, room <> sessionId \/ k <> socket ->
           (In (room, k) (rooms (io w')) <-> In (room, k) (rooms (io w))))) /\
     (faults (ext w) 0%nat = true \/
      find (has_id sessionId) (chatSession (db w)) = None \/
      faults (ext w) 1%nat = true \/
      existsb (message_has_id (uuids (ext w) 0%nat)) (chatMessage (db w)) = true ->
      emitted (io w') =
        emitted (io w) ++
        [(socket, ServerToClientEvents.error
                    "Failed to end session. Please try again.")] /\
      data (io w') = data (io w) /\
      rooms (io w') = rooms (io w) /\
      connected (io w') = connected (io w) /\
      listening (io w') = listening (io w) /\
      chatMessage (db w') = chatMessage (db w))).
Proof.
  split; [reflexivity|]. split; [reflexivity|]. split.
  - intros Hfalsy. unfold handleEndSession, bind, get.
    rewrite if_truthy_falsy by exact Hfalsy. reflexivity.
  - intros sessionId Hid Hne w'. subst w'.
    open_world w. js. rewrite Hid, if_truthy_some by exact Hne. split.
    + intros s Ha Hfind Hfree.
      pose proof (Ha 0%nat ltac:(lia)) as Hf0.
      pose proof (Ha 1%nat ltac:(lia)) as Hf1. cbn in Hf0, Hf1.
      js. rewrite Hf0. js. rewrite Hfind. js. rewrite Hf1. js.
      rewrite Hfree. js.
      split; [exact (find_touched_some _ _ _ _ _ Hfind)|].
      split; [intros other Ho; apply find_other_touched; exact Ho|].
      repeat apply conj; try (rewrite <- ?app_assoc; reflexivity).
      * unfold upd. rewrite Nat.eqb_refl. reflexivity.
      * unfold upd. rewrite Nat.eqb_refl. reflexivity.
      * intros k Hk. unfold upd.
        destruct (Nat.eqb k socket) eqn:Hks; [|reflexivity].
        apply Nat.eqb_eq in Hks. contradiction.
      * intros Hin. apply filter_In in Hin. destruct Hin as [_ Hin].
        unfold is_member in Hin. cbn [fst snd] in Hin.
        rewrite String.eqb_refl, Nat.eqb_refl in Hin. discriminate.
      * intros room k Hother. rewrite filter_In. unfold is_member.
        cbn [fst snd]. split; [intros [Hin _]; exact Hin|].
        intros Hin. split; [exact Hin|].
        destruct Hother as [Hr | Hk].
        -- apply String.eqb_neq in Hr. rewrite Hr. reflexivity.
        -- apply Nat.eqb_neq in Hk. rewrite Hk, andb_false_r. reflexivity.
    + intros Hfail. js.
      destruct (fault 0%nat) eqn:Hf0; js; [settled|].
      destruct (find (has_id sessionId) sessions) as [s|] eqn:Hfind; js;
        [|settled].
      destruct (fault 1%nat) eqn:Hf1; js; [settled|].
      destruct (existsb (message_has_id (gen 0%nat)) messages) eqn:Hex; js;
        [settled|].
      exfalso. destruct Hfail as [H|[H|[H|H]]]; discriminate.
Qed.

Lemma end_session_unified_witness :
  let w' := exec (handleEndSession 0%nat (EndSessionPayload.mk None)) one_tab in
  handleEndSession 0%nat (EndSessionPayload.mk None) empty_world
    = (Ok tt, empty_world) /\
  (find (has_id "a-generated") (chatSession (db w'))
     = Some (ChatSession.mk "a-generated" "v1" CLOSED 1000 1002 None) /\
   status_of w' "a-generated" = Some CLOSED /\
   SocketData.sessionId (data (io w') 0%nat) = None /\
   connected (io w') 0%nat = true /\
   rooms (io w') = []) /\
  delivered (exec (handleEndSession 0%nat (EndSessionPayload.mk (Some "gone")))
                  one_tab) 0%nat
    = delivered one_tab 0%nat ++
      [ServerToClientEvents.error "Failed to end session. Please try again."].
Proof.
  intros w'. split; [|split].
  - apply (end_session_unified 0%nat (EndSessionPayload.mk None) empty_world).
    reflexivity.
  - destruct (end_session_unified 0%nat (EndSessionPayload.mk None) one_tab)
      as (_ & _ & _ & Hrun).
    destruct (Hrun "a-generated" eq_refl ltac:(discriminate)) as [Hok _].
    destruct (Hok (ChatSession.mk "a-generated" "v1" ACTIVE 1000 1001 None))
      as (Hs & _ & _ & _ & Hd & Hr & Hc & _);
      [intros i _; reflexivity | reflexivity | reflexivity |].
    fold w' in Hs, Hd, Hr, Hc. unfold status_of. rewrite Hs, Hd, Hr, Hc.
    repeat split.
  - destruct (end_session_unified 0%nat (EndSessionPayload.mk (Some "gone"))
                one_tab) as (_ & _ & _ & Hrun).
    destruct (Hrun "gone" eq_refl ltac:(discriminate)) as [_ Hfail].
    destruct Hfail as (He & _); [right; left; reflexivity|].
    unfold delivered. rewrite He. reflexivity.
Defined.

(** ** The history loader *)

Lemma getHistory_run (sessionId : string) (limit : option nat) (w : World) :
  faults (ext w) 0%nat = false ->
  getHistory sessionId limit w
  = (Ok (history_rows (db w) sessionId (default_limit limit)),
     set_ext take_fault w).
Proof. intros Hf. open_world w. js. rewrite Hf. reflexivity. Qed.

Lemma getHistory_fault (sessionId : string) (limit : option nat) (w : World) :
  faults (ext w) 0%nat = true ->
  getHistory sessionId limit w = (Throw PrismaFault, set_ext take_fault w).
Proof. intros Hf. open_world w. js. rewrite Hf. reflexivity. Qed.






Lemma history_rows_length (d : Db) (sessionId : string) (limit : nat) :
  (length (history_rows d sessionId limit) <= limit)%nat.
Proof. unfold history_rows. rewrite length_map. apply firstn_le_length. Qed.


(** A load whose limit covers the session returns all of its messages. *)
Lemma history_rows_complete (d : Db) (sessionId : string) (limit : nat) :
  (length (filter (of_session sessionId) (chatMessage d)) <= limit)%nat ->
  Permutation (history_rows d sessionId limit)
              (map mapMessage (filter (of_session sessionId) (chatMessage d))).
Proof.
  intros Hlen. unfold history_rows. apply Permutation_map.
  rewrite firstn_all2 by (rewrite orderBy_length; exact Hlen).
  apply orderBy_perm.
Qed.


(** ** An inbound message that reaches the webhook *)

Ltac enter_flow H w :=
  destruct H as [Hid Hne (text & Hc & Ht) Hcne (s & Hfind & Hst) Ha Hfree];
  apply not_CLOSED in Hst;
  pose proof (Ha 0%nat ltac:(lia)) as Hf0;
  pose proof (Ha 1%nat ltac:(lia)) as Hf1;
  pose proof (Ha 2%nat ltac:(lia)) as Hf2;
  pose proof (Ha 3%nat ltac:(lia)) as Hf3;
  clear Ha; subst;
  open_world w; js;
  rewrite Hid, if_truthy_some by assumption;
  rewrite Hc; cbn [option_map]; rewrite if_truthy_some by assumption;
  js; rewrite Hf0; js; rewrite Hfind; js; rewrite Hst; js;
  rewrite Hf1; js; rewrite Hfree; js;
  rewrite Hf2; js; rewrite Hfind; js; rewrite Hf3; js.


Lemma on_message_oracle_failure (socket : SocketId)
    (payload : IncomingMessagePayload.t) (w : World) (sessionId content : string) :
  reaches_oracle socket payload w sessionId content ->
  n8n_replies (ext w) 0%nat = None ->
  let w' := exec (on_message socket payload) w in
  chatMessage (db w') = chatMessage (db w) ++ [user_message w sessionId content] /\
  emitted (io w') =
    emitted (io w) ++
    fan_out w sessionId
      (ServerToClientEvents.message (mapMessage (user_message w sessionId content))) ++
    [(socket, ServerToClientEvents.error
                "Unable to send message right now. Please try again.")] /\
  data (io w') = data (io w) /\ rooms (io w') = rooms (io w) /\
  connected (io w') = connected (io w).
Proof.
  intros H Hreply w'. subst w'. enter_flow H w.
  cbn in Hreply. rewrite Hreply. js. unfold fan_out. settled.
Qed.

Lemma new_events_app (w w' : World)
    (l : list (SocketId * ServerToClientEvents.t)) :
  emitted (io w') = emitted (io w) ++ l -> new_events w w' = l.
Proof.
  intros H. unfold new_events. rewrite H, skipn_app, skipn_all, Nat.sub_diag.
  reflexivity.
Qed.

Lemma fan_out_no_error (w : World) (room : string) (m : ChatMessageDto.t) :
  filter is_error (fan_out w room (ServerToClientEvents.message m)) = [].
Proof.
  unfold fan_out. induction (filter (in_room room) (rooms (io w))) as [|x l IH];
    cbn; [reflexivity | exact IH].
Qed.

(** A history load contains a message of the session as soon as its limit
    covers the session. *)
Lemma getHistory_contains (sessionId : string) (limit : option nat) (w : World)
    (m : ChatMessage.t) :
  faults (ext w) 0%nat = false ->
  In m (chatMessage (db w)) -> ChatMessage.session_id m = sessionId ->
  (length (filter (of_session sessionId) (chatMessage (db w)))
   <= default_limit limit)%nat ->
  exists h, getHistory sessionId limit w = (Ok h, set_ext take_fault w) /\
            In (mapMessage m) h.
Proof.
  intros Hf Hin Hs Hlen. rewrite getHistory_run by exact Hf.
  eexists. split; [reflexivity|].
  eapply Permutation_in;
    [apply Permutation_sym, history_rows_complete; exact Hlen|].
  apply in_map, filter_In. split; [exact Hin|]. apply String.eqb_eq, Hs.
Qed.

(** C6, as the code has it: when the listener has persisted the USER
    message and the webhook call fails, the message table holds exactly the
    old rows and the USER message (no BOT row, no rollback); the events
    emitted are the fan-out of the USER message followed by one [error]
    event, which goes to the sender alone; and a later history load returns
    the USER message provided its limit is greater than the number of
    messages the session held before. *)
Theorem oracle_failure_keeps_user_message (socket : SocketId)
    (payload : IncomingMessagePayload.t) (w : World) (sessionId content : string) :
  reaches_oracle socket payload w sessionId content ->
  n8n_replies (ext w) 0%nat = None ->
  let w' := exec (on_message socket payload) w in
  let um := user_message w sessionId content in
  chatMessage (db w') = chatMessage (db w) ++ [um] /\
  new_events w w' =
    fan_out w sessionId (ServerToClientEvents.message (mapMessage um)) ++
    [(socket, ServerToClientEvents.error
                "Unable to send message right now. Please try again.")] /\
  filter is_error (new_events w w') =
    [(socket, ServerToClientEvents.error
                "Unable to send message right now. Please try again.")] /\
  (forall limit later,
     db later = db w' -> faults (ext later) 0%nat = false ->
     (length (filter (of_session sessionId) (chatMessage (db w)))
      < default_limit limit)%nat ->
     exists h, getHistory sessionId limit later = (Ok h, set_ext take_fault later) /\
               In (mapMessage um) h).
Proof.
  intros H Hreply w' um.
  destruct (on_message_oracle_failure socket payload w sessionId content H Hreply)
    as (Hm & He & _).
  fold w' um in Hm, He. apply new_events_app in He.
  repeat apply conj.
  - exact Hm.
  - exact He.
  - rewrite He, filter_app, fan_out_no_error. reflexivity.
  - intros limit later Hdb Hf Hlen.
    apply getHistory_contains; [exact Hf | | reflexivity |].
    + rewrite Hdb, Hm. apply in_or_app. right. left. reflexivity.
    + rewrite Hdb, Hm, filter_app, length_app. cbn.
      rewrite String.eqb_refl. cbn. lia.
Qed.

Lemma oracle_failure_keeps_user_message_witness :
  let w := set_ext oracle_down one_tab in
  let w' := exec (on_message 0%nat
                    (IncomingMessagePayload.mk None (Some " hi ") None)) w in
  chatMessage (db w') = [user_message w "a-generated" "hi"] /\
  new_events w w' =
    [(0%nat, ServerToClientEvents.message
               (mapMessage (user_message w "a-generated" "hi")));
     (0%nat, ServerToClientEvents.error
               "Unable to send message right now. Please try again.")].
Proof.
  intros w w'.
  assert (H : reaches_oracle 0%nat
                (IncomingMessagePayload.mk None (Some " hi ") None) w
                "a-generated" "hi").
  { constructor.
    - reflexivity.
    - discriminate.
    - exists " hi ". split; reflexivity.
    - discriminate.
    - exists (ChatSession.mk "a-generated" "v1" ACTIVE 1000 1001 None).
      split; [reflexivity | discriminate].
    - intros i _. reflexivity.
    - reflexivity. }
  destruct (oracle_failure_keeps_user_message 0%nat _ w "a-generated" "hi" H
              eq_refl) as (Hm & He & _).
  split; [exact Hm | exact He].
Defined.

Lemma not_in_by_id (d : ChatMessageDto.t) (h : list ChatMessageDto.t) :
  forallb (fun x => negb (String.eqb (ChatMessageDto.id x) (ChatMessageDto.id d))) h
    = true ->
  ~ In d h.
Proof.
  intros Hall Hin. rewrite forallb_forall in Hall. specialize (Hall d Hin).
  rewrite String.eqb_refl in Hall. discriminate.
Qed.

(** C6 as stated fails once the session is long: with a hundred messages
    in session ["a-generated"], the USER message of a turn whose webhook call
    fails is persisted as row 101, and the next history load (limit 100,
    oldest first) does not return it. *)
Lemma long_session_hides_user_message :
  let payload := IncomingMessagePayload.mk None (Some "hi") None in
  let w' := exec (on_message 0%nat payload) long_session in
  let um := user_message long_session "a-generated" "hi" in
  reaches_oracle 0%nat payload long_session "a-generated" "hi" /\
  n8n_replies (ext long_session) 0%nat = None /\
  nth_error (chatMessage (db w')) 100 = Some um /\
  length (chatMessage (db w')) = 101%nat /\
  exists h,
    getHistory "a-generated" None w' = (Ok h, set_ext take_fault w') /\
    ~ In (mapMessage um) h.
Proof.
  intros payload w' um. repeat apply conj.
  - constructor.
    + reflexivity.
    + discriminate.
    + exists "hi". split; reflexivity.
    + discriminate.
    + exists (ChatSession.mk "a-generated" "v1" ACTIVE 1000 1001 None).
      split; [reflexivity | discriminate].
    + intros i _. reflexivity.
    + vm_compute. reflexivity.
  - reflexivity.
  - vm_compute. reflexivity.
  - vm_compute. reflexivity.
  - eexists. split.
    + apply getHistory_run. reflexivity.
    + apply not_in_by_id. vm_compute. reflexivity.
Qed.

(** ** Attaching a transport *)

Lemma bind_ok {A B} (c : M A) (k : A -> M B) (w w1 : World) (a : A) :
  c w = (Ok a, w1) -> bind c k w = k a w1.
Proof. intros H. unfold bind. rewrite H. reflexivity. Qed.

Lemma find_of_In (s : ChatSession.t) (rows : list ChatSession.t) :
  In s rows -> exists s', find (has_id (ChatSession.id s)) rows = Some s'.
Proof.
  intros Hin. destruct (find (has_id (ChatSession.id s)) rows) as [s'|] eqn:Hf.
  - exists s'. reflexivity.
  - exfalso. pose proof (find_none _ _ Hf s Hin) as Hno.
    unfold has_id in Hno. rewrite String.eqb_refl in Hno. discriminate.
Qed.

(** What a successful resolution can be: the session is not CLOSED, the
    socket.io server is left alone, and either the session is a row of the
    table, which is unchanged, or it is a new row with an unused id, appended
    to the table. *)
Lemma ensureSession_none_inversion (v : string) (w w1 : World) (s : ChatSession.t) :
  ensureSession v None w = (Ok s, w1) ->
  io w1 = io w /\ ChatSession.status s <> CLOSED /\
  ((In s (chatSession (db w)) /\ db w1 = db w) \/
   (existsb (has_id (ChatSession.id s)) (chatSession (db w)) = false /\
    db w1 = mkDb (chatSession (db w) ++ [s]) (chatMessage (db w)))).
Proof.
  open_world w. js.
  destruct (fault 0%nat); js; [discriminate|].
  destruct (hd_error (orderBy session_created_at_desc
                        (filter (open_session_of v) sessions))) as [e|] eqn:Hhd;
    js.
  - intros H. injection H as <- <-. apply open_sessions_first in Hhd.
    destruct Hhd as (Hin & [_ Hst] & _).
    split; [reflexivity|]. split; [exact Hst|]. left. split; [exact Hin|reflexivity].
  - destruct (fault 1%nat); js; [discriminate|].
    destruct (existsb (has_id (gen 0%nat)) sessions) eqn:Hfree; js; [discriminate|].
    intros H. injection H as <- <-.
    split; [reflexivity|]. split; [discriminate|]. right.
    split; [exact Hfree | reflexivity].
Qed.

Lemma ensureSession_inversion (v : string) (req : option string) (w w1 : World)
    (s : ChatSession.t) :
  ensureSession v req w = (Ok s, w1) ->
  io w1 = io w /\ ChatSession.status s <> CLOSED /\
  ((In s (chatSession (db w)) /\ db w1 = db w) \/
   (existsb (has_id (ChatSession.id s)) (chatSession (db w)) = false /\
    db w1 = mkDb (chatSession (db w) ++ [s]) (chatMessage (db w)))).
Proof.
  destruct (truthy req) eqn:Ht.
  - destruct req as [r|]; [|discriminate]. apply truthy_some in Ht.
    destruct (faults (ext w) 0%nat) eqn:Hf.
    { unfold ensureSession. cbv zeta. rewrite if_truthy_some by exact Ht.
      open_world w. js. rewrite Hf. discriminate. }
    destruct (find (has_id r) (chatSession (db w))) as [s0|] eqn:Hfind.
    + destruct (ChatSession.status s0) eqn:Hst.
      * rewrite (ensureSession_reuse v r w s0) by (try assumption; congruence).
        intros H. injection H as <- <-.
        split; [reflexivity|]. split; [congruence|]. left.
        split; [|reflexivity]. apply find_some in Hfind. apply Hfind.
      * rewrite ensureSession_skip; try assumption; [|intros s' Hs'; congruence].
        intros H. apply ensureSession_none_inversion in H. exact H.
    + rewrite ensureSession_skip; try assumption; [|intros s' Hs'; congruence].
      intros H. apply ensureSession_none_inversion in H. exact H.
  - rewrite ensureSession_falsy by exact Ht. apply ensureSession_none_inversion.
Qed.

(** A session the resolver returns is a row of the table, and resolving
    leaves the socket.io server alone. *)
Lemma ensureSession_result (v : string) (req : option string) (w w1 : World)
    (s : ChatSession.t) :
  ensureSession v req w = (Ok s, w1) ->
  In s (chatSession (db w1)) /\ io w1 = io w.
Proof.
  intros H. apply ensureSession_inversion in H.
  destruct H as (Hio & _ & [[Hin ->] | [_ ->]]); split; try assumption.
  cbn. apply in_or_app. right. left. reflexivity.
Qed.

(** The resolver never hands out a CLOSED row. *)
Lemma ensureSession_open (v : string) (req : option string) (w w1 : World)
    (s : ChatSession.t) :
  ensureSession v req w = (Ok s, w1) -> ChatSession.status s <> CLOSED.
Proof. intros H. apply ensureSession_inversion in H. apply H. Qed.

(** An attach whose resolution returned session [s] in world [w1], when the
    history load and the final update go through. *)
Lemma handleConnection_attaches (socket : SocketId) (handshake : Handshake.t)
    (w w0 w1 : World) (v : string) (s : ChatSession.t) :
  if_truthy (supplied_visitorId handshake) ret uuid w = (Ok v, w0) ->
  ensureSession v (requested_sessionId handshake) w0 = (Ok s, w1) ->
  answers w1 2 ->
  let w' := exec (handleConnection socket handshake) w in
  emitted (io w') =
    emitted (io w1) ++
    (socket, ServerToClientEvents.session (ChatSession.id s) v
               (ChatSession.status s))
    :: replay socket (history_rows (db w1) (ChatSession.id s) 100) /\
  data (io w') socket
    = SocketData.mk (Some (ChatSession.id s)) (Some v) /\
  (forall k, k <> socket -> data (io w') k = data (io w1) k) /\
  rooms (io w') =
    (if existsb (is_member (ChatSession.id s) socket) (rooms (io w1))
     then rooms (io w1)
     else rooms (io w1) ++ [(ChatSession.id s, socket)]) /\
  connected (io w') = connected (io w1) /\
  listening (io w') socket = true /\
  chatMessage (db w') = chatMessage (db w1) /\
  chatSession (db w') =
    map (fun r => if has_id (ChatSession.id s) r
                  then touch (dates (ext w1) 0%nat) ACTIVE r else r)
        (chatSession (db w1)).
Proof.
  intros Hv Hs Ha w'. subst w'.
  destruct (ensureSession_result _ _ _ _ _ Hs) as [Hin _].
  apply find_of_In in Hin. destruct Hin as (s' & Hfind).
  pose proof (Ha 0%nat ltac:(lia)) as Hf0.
  pose proof (Ha 1%nat ltac:(lia)) as Hf1.
  unfold exec, handleConnection.
  rewrite (bind_ok _ _ _ _ _ Hv). cbv zeta. unfold try_catch.
  rewrite (bind_ok _ _ _ _ _ Hs).
  clear Hv Hs Ha. open_world w1. js. rewrite Hf0. js.
  unfold history_rows. cbn [chatMessage].
  destruct (map mapMessage
              (firstn 100 (orderBy message_created_at_asc
                 (filter (of_session (ChatSession.id s)) messages))))
    as [|d0 h]; js; rewrite Hf1; js; rewrite Hfind; js;
    (repeat apply conj;
     [ rewrite <- ?app_assoc; reflexivity
     | unfold upd; rewrite Nat.eqb_refl; reflexivity
     | intros k Hk; unfold upd; apply Nat.eqb_neq in Hk; rewrite Hk; reflexivity
     | reflexivity | reflexivity
     | unfold upd; rewrite Nat.eqb_refl; reflexivity
     | reflexivity | reflexivity ]).
Qed.

Lemma visitor_phase (h : Handshake.t) (w w0 : World) (v : string) :
  if_truthy (supplied_visitorId h) ret uuid w = (Ok v, w0) ->
  (truthy (supplied_visitorId h) = true /\ supplied_visitorId h = Some v /\ w0 = w) \/
  (truthy (supplied_visitorId h) = false /\ v = uuids (ext w) 0%nat /\
   w0 = set_ext take_uuid w).
Proof.
  destruct (supplied_visitorId h) as [[|c r]|]; cbn; intros H;
    injection H as <- <-; auto.
Qed.

Lemma visitor_phase_io (h : Handshake.t) (w w0 : World) (v : string) :
  if_truthy (supplied_visitorId h) ret uuid w = (Ok v, w0) -> io w0 = io w.
Proof.
  intros H. apply visitor_phase in H.
  destruct H as [(_ & _ & ->) | (_ & _ & ->)]; reflexivity.
Qed.



Lemma ensureSession_create_run (v : string) (w : World) :
  faults (ext w) 0%nat = false -> faults (ext w) 1%nat = false ->
  filter (open_session_of v) (chatSession (db w)) = [] ->
  existsb (has_id (uuids (ext w) 0%nat)) (chatSession (db w)) = false ->
  ensureSession v None w = (Ok (created_session w v), after_create w v).
Proof.
  intros Hf0 Hf1 Hnone Hfree. open_world w. js. rewrite Hf0. js.
  rewrite Hnone. cbn [orderBy fold_right hd_error]. js. rewrite Hf1. js.
  rewrite Hfree. reflexivity.
Qed.

Lemma find_app_new (rows : list ChatSession.t) (s : ChatSession.t) :
  existsb (has_id (ChatSession.id s)) rows = false ->
  find (has_id (ChatSession.id s)) (rows ++ [s]) = Some s.
Proof.
  intros Hfree. induction rows as [|r rows IH]; cbn in *.
  - unfold has_id. rewrite String.eqb_refl. reflexivity.
  - apply orb_false_iff in Hfree. destruct Hfree as [Hr Hrows].
    rewrite Hr. apply IH, Hrows.
Qed.

Lemma find_absent (i : string) (rows : list ChatSession.t) :
  existsb (has_id i) rows = false -> find (has_id i) rows = None.
Proof.
  intros Hfree. induction rows as [|r rows IH]; cbn in *; [reflexivity|].
  apply orb_false_iff in Hfree. destruct Hfree as [Hr Hrows].
  rewrite Hr. apply IH, Hrows.
Qed.

(** C10, as the code has it: when the handshake supplies no visitor
    identity, one is generated and used for resolution.  If that identity owns
    no open session and the handshake does not request a session that exists
    and is not CLOSED, then, the repository answering, step 4 creates a
    session owned by the generated identity, the transport is bound to it,
    stays connected and is sent the [session] event. *)
Theorem attach_without_visitor_identity (socket : SocketId)
    (handshake : Handshake.t) (w : World) :
  truthy (supplied_visitorId handshake) = false ->
  let visitorId := uuids (ext w) 0%nat in
  let new := ChatSession.mk (uuids (ext w) 1%nat) visitorId ACTIVE
                            (dates (ext w) 0%nat) (dates (ext w) 0%nat) None in
  (forall s, ~ reattachable w (requested_sessionId handshake) s) ->
  (forall s, In s (chatSession (db w)) -> ~ open_for visitorId s) ->
  existsb (has_id (ChatSession.id new)) (chatSession (db w)) = false ->
  answers w 5 ->
  let w' := exec (handleConnection socket handshake) w in
  attached_to_new_session w w' socket /\
  find (has_id (ChatSession.id new)) (chatSession (db w'))
    = Some (touch (dates (ext w) 1%nat) ACTIVE new) /\
  data (io w') socket
    = SocketData.mk (Some (ChatSession.id new)) (Some visitorId) /\
  connected (io w') = connected (io w) /\
  new_events w w' =
    (socket, ServerToClientEvents.session (ChatSession.id new) visitorId ACTIVE)
    :: replay socket (history_rows (db w) (ChatSession.id new) 100).
Proof.
  intros Hfalsy visitorId new Hno Hnone Hfree Ha w'.
  set (w0 := set_ext take_uuid w).
  assert (Hv : if_truthy (supplied_visitorId handshake) ret uuid w
               = (Ok visitorId, w0))
    by (rewrite if_truthy_falsy by exact Hfalsy; reflexivity).
  apply no_open_session in Hnone.
  assert (Hrun : exists w1,
            ensureSession visitorId (requested_sessionId handshake) w0
              = (Ok new, w1) /\
            answers w1 2 /\ io w1 = io w /\
            chatSession (db w1) = chatSession (db w) ++ [new] /\
            chatMessage (db w1) = chatMessage (db w) /\
            dates (ext w1) 0%nat = dates (ext w) 1%nat).
  { destruct (not_reattachable_cases w (requested_sessionId handshake) Hno)
      as [Hf | (r & Hr & Hne & Hclosed)].
    - exists (after_create w0 visitorId). split.
      + rewrite ensureSession_falsy by exact Hf.
        apply ensureSession_create_run; try assumption;
          [apply (Ha 0%nat) | apply (Ha 1%nat)]; lia.
      + repeat split. intros i Hi. apply (Ha (S (S i))). lia.
    - exists (after_create (set_ext take_fault w0) visitorId). split.
      + rewrite Hr, ensureSession_skip; try assumption; [|apply (Ha 0%nat); lia].
        apply ensureSession_create_run; try assumption;
          [apply (Ha 1%nat) | apply (Ha 2%nat)]; lia.
      + repeat split. intros i Hi. apply (Ha (S (S (S i)))). lia. }
  destruct Hrun as (w1 & Hs & Ha1 & Hio & Hrows & Hmsgs & Hdate).
  destruct (handleConnection_attaches socket handshake w w0 w1 visitorId new
              Hv Hs Ha1)
    as (He & Hd & _ & _ & Hc & _ & _ & Hsessions).
  fold w' in He, Hd, Hc, Hsessions.
  assert (Hfind : find (has_id (ChatSession.id new)) (chatSession (db w'))
                  = Some (touch (dates (ext w) 1%nat) ACTIVE new)).
  { rewrite Hsessions, Hdate, Hrows. apply find_touched_some.
    apply find_app_new, Hfree. }
  repeat apply conj.
  - exists (touch (dates (ext w) 1%nat) ACTIVE new). repeat split.
    + rewrite Hd. reflexivity.
    + apply find_some in Hfind. apply Hfind.
    + apply find_absent, Hfree.
  - exact Hfind.
  - exact Hd.
  - rewrite Hc, Hio. reflexivity.
  - apply new_events_app. rewrite He, Hio.
    unfold history_rows. rewrite Hmsgs. reflexivity.
Qed.

Lemma attach_without_visitor_identity_witness :
  let w' := exec (handleConnection 1%nat anonymous) one_tab in
  attached_to_new_session one_tab w' 1%nat /\
  data (io w') 1%nat = SocketData.mk (Some "c-generated") (Some "b-generated").
Proof.
  intros w'.
  destruct (attach_without_visitor_identity 1%nat anonymous one_tab)
    as (Hnew & _ & Hd & _); try reflexivity.
  - intros s (r & Hr & _). discriminate.
  - intros s [<- | []] [Hv _]. discriminate.
  - intros i _. reflexivity.
  - split; [exact Hnew | exact Hd].
Defined.

(** C10 as stated fails when the handshake names a session: a handshake
    without visitor identity that requests the open session ["a-generated"]
    is reattached to it by step 1; no session is created. *)
Lemma anonymous_attach_reuses_requested_session :
  let handshake :=
    Handshake.mk None (Handshake.mk_fields None (Some "a-generated")) in
  let w' := step one_tab (connection 1%nat handshake) in
  supplied_visitorId handshake = None /\
  SocketData.sessionId (data (io w') 1%nat) = Some "a-generated" /\
  length (chatSession (db w')) = length (chatSession (db one_tab)) /\
  ~ attached_to_new_session one_tab w' 1%nat.
Proof.
  intros handshake w'. repeat apply conj; try reflexivity.
  intros (s & Hd & _ & Hnew).
  change (Some "a-generated" = Some (ChatSession.id s)) in Hd.
  injection Hd as Hid. rewrite <- Hid in Hnew. vm_compute in Hnew.
  discriminate.
Qed.

(** ** Closed sessions *)

(** A heartbeat that reaches the repository sets the session ACTIVE,
    whatever its status was. *)
Lemma heartbeat_forces_active (socket : SocketId) (payload : HeartbeatPayload.t)
    (w : World) (sessionId : string) (s : ChatSession.t) :
  nullish (HeartbeatPayload.sessionId payload)
          (SocketData.sessionId (data (io w) socket)) = Some sessionId ->
  sessionId <> "" ->
  faults (ext w) 0%nat = false ->
  find (has_id sessionId) (chatSession (db w)) = Some s ->
  status_of (exec (on_heartbeat socket payload) w) sessionId = Some ACTIVE.
Proof.
  intros Hid Hne Hf Hfind. unfold status_of. open_world w. js.
  rewrite Hid, if_truthy_some by exact Hne. js. rewrite Hf. js.
  rewrite Hfind. js. rewrite (find_touched_some _ _ _ _ _ Hfind). reflexivity.
Qed.

(** C1 fails on the heartbeat listener: with two tabs on one session, the
    first tab ends the session, which is then CLOSED in the table; the
    periodic heartbeat of the second tab, or a heartbeat that names the
    session, sets it ACTIVE again. *)
Theorem heartbeat_reopens_closed_session :
  status_of ended "a-generated" = Some CLOSED /\
  status_of (step ended (client 1%nat (beat None))) "a-generated"
    = Some ACTIVE /\
  status_of (step ended (client 0%nat (beat (Some "a-generated")))) "a-generated"
    = Some ACTIVE.
Proof. repeat split; vm_compute; reflexivity. Qed.

(** C9 fails for the same reason: after the first tab has ended session
    ["a-generated"], an attach that requests it is given another session;
    but once a heartbeat of the second tab has come in between, the same
    attach is bound to ["a-generated"] again. *)
Theorem attach_after_heartbeat_reuses_closed_session :
  let request := connection 2%nat (visitor "v1" (Some "a-generated")) in
  status_of ended "a-generated" = Some CLOSED /\
  SocketData.sessionId (data (io (run ended [request])) 2%nat)
    = Some "c-generated" /\
  SocketData.sessionId
    (data (io (run ended [client 1%nat (beat None); request])) 2%nat)
    = Some "a-generated".
Proof. repeat split; vm_compute; reflexivity. Qed.

(** *** What each listener does to the session table *)

Lemma on_message_sessions (socket : SocketId) (payload : IncomingMessagePayload.t)
    (w : World) :
  let rows := chatSession (db w) in
  let rows' := chatSession (db (exec (on_message socket payload) w)) in
  rows' = rows \/
  exists sessionId s t,
    find (has_id sessionId) rows = Some s /\ ChatSession.status s <> CLOSED /\
    rows' = touched sessionId t ACTIVE rows.
Proof.
  intros rows rows'. subst rows rows'. open_world w. js.
  destruct (nullish (IncomingMessagePayload.sessionId payload)
                    (SocketData.sessionId (sockdata socket))) as [[|c0 r0]|];
    js; try (left; reflexivity).
  destruct (option_map trim (IncomingMessagePayload.content payload))
    as [[|c1 r1]|]; js; try (left; reflexivity).
  destruct (fault 0%nat); js; [left; reflexivity|].
  destruct (find (has_id (String c0 r0)) sessions) as [s|] eqn:Hfind; js;
    [|left; reflexivity].
  destruct (status_eqb (ChatSession.status s) CLOSED) eqn:Hst; js;
    [left; reflexivity|].
  destruct (fault 1%nat); js; [left; reflexivity|].
  destruct (existsb (message_has_id (gen 0%nat)) messages); js;
    [left; reflexivity|].
  destruct (fault 2%nat); js; [left; reflexivity|].
  rewrite Hfind. js.
  right. exists (String c0 r0), s, (clock 1%nat).
  split; [exact Hfind|]. split; [apply not_CLOSED; exact Hst|].
  destruct (fault 3%nat); js; [reflexivity|].
  destruct (reply 0%nat); js; [|reflexivity].
  destruct (fault 4%nat); js; [reflexivity|].
  match goal with |- context [existsb ?f ?l] => destruct (existsb f l) end;
    js; reflexivity.
Qed.

Lemma on_heartbeat_sessions (socket : SocketId) (payload : HeartbeatPayload.t)
    (w : World) :
  let rows := chatSession (db w) in
  let rows' := chatSession (db (exec (on_heartbeat socket payload) w)) in
  rows' = rows \/ exists sessionId t, rows' = touched sessionId t ACTIVE rows.
Proof.
  intros rows rows'. subst rows rows'. open_world w. js.
  destruct (nullish (HeartbeatPayload.sessionId payload)
                    (SocketData.sessionId (sockdata socket))) as [[|c0 r0]|];
    js; try (left; reflexivity).
  destruct (fault 0%nat); js; [left; reflexivity|].
  destruct (find (has_id (String c0 r0)) sessions) as [s|]; js;
    [|left; reflexivity].
  right. exists (String c0 r0), (clock 0%nat). reflexivity.
Qed.

Lemma handleEndSession_sessions (socket : SocketId) (payload : EndSessionPayload.t)
    (w : World) :
  let rows := chatSession (db w) in
  let rows' := chatSession (db (exec (handleEndSession socket payload) w)) in
  rows' = rows \/ exists sessionId t, rows' = touched sessionId t CLOSED rows.
Proof.
  intros rows rows'. subst rows rows'. open_world w. js.
  destruct (nullish (EndSessionPayload.sessionId payload)
                    (SocketData.sessionId (sockdata socket))) as [[|c0 r0]|];
    js; try (left; reflexivity).
  destruct (fault 0%nat); js; [left; reflexivity|].
  destruct (find (has_id (String c0 r0)) sessions) as [s|]; js;
    [|left; reflexivity].
  right. exists (String c0 r0), (clock 0%nat).
  destruct (fault 1%nat); js; [reflexivity|].
  destruct (existsb (message_has_id (gen 0%nat)) messages); js; reflexivity.
Qed.

Lemma bind_throw {A B} (c : M A) (k : A -> M B) (w w1 : World) (e : Err) :
  c w = (Throw e, w1) -> bind c k w = (Throw e, w1).
Proof. intros H. unfold bind. rewrite H. reflexivity. Qed.

Lemma ensureSession_throw_db (v : string) (req : option string) (w w1 : World)
    (e : Err) :
  ensureSession v req w = (Throw e, w1) -> db w1 = db w.
Proof.
  intros H. destruct (ensureSession_writes v req w) as [Hsame | (_ & _ & w' & Hrun & _)].
  - unfold exec in Hsame. rewrite H in Hsame. exact Hsame.
  - congruence.
Qed.

Lemma handleConnection_sessions (socket : SocketId) (handshake : Handshake.t)
    (w : World) :
  let rows := chatSession (db w) in
  let rows' := chatSession (db (exec (handleConnection socket handshake) w)) in
  rows' = rows \/
  exists s rows1 t,
    ChatSession.status s <> CLOSED /\
    ((In s rows /\ rows1 = rows) \/
     (existsb (has_id (ChatSession.id s)) rows = false /\ rows1 = rows ++ [s])) /\
    (rows' = rows1 \/ rows' = touched (ChatSession.id s) t ACTIVE rows1).
Proof.
  intros rows rows'. subst rows rows'. unfold exec, handleConnection.
  destruct (if_truthy (supplied_visitorId handshake) ret uuid w) as [[v|e] w0] eqn:Hv;
    [|destruct (supplied_visitorId handshake) as [[|c r]|]; discriminate].
  rewrite (bind_ok _ _ _ _ _ Hv). cbv zeta. unfold try_catch.
  assert (Hdb0 : db w0 = db w).
  { apply visitor_phase in Hv. destruct Hv as [(_ & _ & ->) | (_ & _ & ->)];
      reflexivity. }
  rewrite <- Hdb0. clear Hv Hdb0.
  destruct (ensureSession v (requested_sessionId handshake) w0) as [[s|e] w1] eqn:Hs.
  - rewrite (bind_ok _ _ _ _ _ Hs).
    apply ensureSession_inversion in Hs. destruct Hs as (_ & Hst & Hcases).
    right. exists s, (chatSession (db w1)), (dates (ext w1) 0%nat).
    split; [exact Hst|]. split.
    { destruct Hcases as [[Hin ->] | [Hfree ->]]; [left | right]; split;
        try assumption; reflexivity. }
    clear Hcases Hst. open_world w1. js.
    destruct (fault 0%nat); js; [left; reflexivity|].
    destruct (map mapMessage
                (firstn 100 (orderBy message_created_at_asc
                   (filter (of_session (ChatSession.id s)) messages))));
      js; (destruct (fault 1%nat); js; [left; reflexivity|]);
      (destruct (find (has_id (ChatSession.id s)) sessions); js;
       [right; reflexivity | left; reflexivity]).
  - rewrite (bind_throw _ _ _ _ _ Hs).
    apply ensureSession_throw_db in Hs. left.
    open_world w1. js. rewrite <- Hs. reflexivity.
Qed.

(** *** Invariants of the session table *)

Lemma touched_ids (i : string) (t : Z) (st : chat_session_status)
    (rows : list ChatSession.t) :
  map ChatSession.id (touched i t st rows) = map ChatSession.id rows.
Proof.
  unfold touched. rewrite map_map. apply map_ext.
  intros r. destruct (has_id i r); reflexivity.
Qed.

Lemma existsb_has_id (i : string) (rows : list ChatSession.t) :
  existsb (has_id i) rows = false <-> ~ In i (map ChatSession.id rows).
Proof.
  induction rows as [|r rows IH]; cbn.
  - split; [intros _ [] | reflexivity].
  - rewrite orb_false_iff, IH. unfold has_id. rewrite String.eqb_neq. tauto.
Qed.

Lemma fresh_append_unique (rows : list ChatSession.t) (s : ChatSession.t) :
  NoDup (map ChatSession.id rows) ->
  existsb (has_id (ChatSession.id s)) rows = false ->
  NoDup (map ChatSession.id (rows ++ [s])).
Proof.
  intros Hnd Hfree. apply existsb_has_id in Hfree.
  rewrite map_app. cbn. apply NoDup_app.
  - exact Hnd.
  - repeat constructor. intros [].
  - intros i Hi [<- | []]. exact (Hfree Hi).
Qed.

Lemma unique_find (rows : list ChatSession.t) (s : ChatSession.t) :
  NoDup (map ChatSession.id rows) -> In s rows ->
  find (has_id (ChatSession.id s)) rows = Some s.
Proof.
  induction rows as [|r rows IH]; cbn; intros Hnd Hin; [contradiction|].
  inversion Hnd as [|? ? Hr Hrows]; subst.
  destruct Hin as [-> | Hin].
  - unfold has_id. rewrite String.eqb_refl. reflexivity.
  - destruct (has_id (ChatSession.id s) r) eqn:Hrs.
    + exfalso. apply Hr. apply String.eqb_eq in Hrs. rewrite Hrs.
      apply in_map, Hin.
    + apply IH; assumption.
Qed.

Lemma find_app_found {A} (f : A -> bool) (l l' : list A) (x : A) :
  find f l = Some x -> find f (l ++ l') = Some x.
Proof.
  induction l as [|y l IH]; cbn; [discriminate|].
  destruct (f y); [trivial | exact IH].
Qed.

(** The primary key holds in every reachable world. *)
Theorem step_unique_ids (w : World) (i : Input) :
  unique_ids w -> unique_ids (step w i).
Proof.
  unfold unique_ids. intros Hnd. destruct i as [socket handshake | socket event].
  - cbn [step].
    destruct (handleConnection_sessions socket handshake (set_io (accept socket) w))
      as [-> | (s & rows1 & t & _ & Hrows1 & Hrows')]; [exact Hnd|].
    assert (Hnd1 : NoDup (map ChatSession.id rows1)).
    { destruct Hrows1 as [[_ ->] | [Hfree ->]]; [exact Hnd|].
      apply fresh_append_unique; assumption. }
    destruct Hrows' as [-> | ->]; [exact Hnd1|].
    rewrite touched_ids. exact Hnd1.
  - cbn [step]. destruct (connected (io w) socket && listening (io w) socket);
      [|exact Hnd].
    destruct event as [payload | payload | payload | payload];
      cbn [registerSocketEvents].
    + destruct (on_message_sessions socket payload w)
        as [-> | (sid & s & t & _ & _ & ->)]; [exact Hnd|].
      rewrite touched_ids. exact Hnd.
    + destruct (on_heartbeat_sessions socket payload w)
        as [-> | (sid & t & ->)]; [exact Hnd|].
      rewrite touched_ids. exact Hnd.
    + destruct (handleEndSession_sessions socket payload w)
        as [-> | (sid & t & ->)]; [exact Hnd|].
      rewrite touched_ids. exact Hnd.
    + destruct (handleEndSession_sessions socket payload w)
        as [-> | (sid & t & ->)]; [exact Hnd|].
      rewrite touched_ids. exact Hnd.
Qed.

Lemma closed_after_touch (rows : list ChatSession.t) (closed other : string)
    (t : Z) (st : chat_session_status) :
  option_map ChatSession.status (find (has_id closed) rows) = Some CLOSED ->
  (other = closed -> st = CLOSED) ->
  option_map ChatSession.status
    (find (has_id closed) (touched other t st rows)) = Some CLOSED.
Proof.
  intros Hclosed Hst. unfold touched.
  destruct (String.eqb_spec closed other) as [<- | Hne].
  - rewrite find_touched.
    destruct (find (has_id closed) rows) as [c|]; [|discriminate].
    cbn. rewrite Hst; reflexivity.
  - rewrite find_other_touched by exact Hne. exact Hclosed.
Qed.

(** Apart from the heartbeat, no input makes a CLOSED session ACTIVE again:
    the message listener refuses a CLOSED session, ending a session writes
    CLOSED, and an attach updates only the session the resolver returned,
    which is not CLOSED. *)
Theorem closed_stays_closed (w : World) (i : Input) (sessionId : string) :
  unique_ids w -> is_heartbeat i = false ->
  status_of w sessionId = Some CLOSED ->
  status_of (step w i) sessionId = Some CLOSED.
Proof.
  unfold unique_ids, status_of. intros Hnd Hnot Hclosed.
  destruct i as [socket handshake | socket event].
  - cbn [step].
    destruct (handleConnection_sessions socket handshake (set_io (accept socket) w))
      as [-> | (s & rows1 & t & Hopen & Hrows1 & Hrows')]; [exact Hclosed|].
    change (chatSession (db (set_io (accept socket) w)))
      with (chatSession (db w)) in Hrows1.
    destruct (find (has_id sessionId) (chatSession (db w))) as [c|] eqn:Hc;
      [|discriminate].
    cbn in Hclosed. injection Hclosed as Hcst.
    assert (Hother : ChatSession.id s <> sessionId).
    { intros <-. destruct Hrows1 as [[Hin _] | [Hfree _]].
      - rewrite (unique_find _ _ Hnd Hin) in Hc. congruence.
      - rewrite (find_absent _ _ Hfree) in Hc. discriminate. }
    assert (H1 : option_map ChatSession.status (find (has_id sessionId) rows1)
                 = Some CLOSED).
    { destruct Hrows1 as [[_ ->] | [_ ->]].
      - rewrite Hc. cbn. congruence.
      - rewrite (find_app_found _ _ _ _ Hc). cbn. congruence. }
    destruct Hrows' as [-> | ->]; [exact H1|].
    apply closed_after_touch; [exact H1 | congruence].
  - cbn [step]. destruct (connected (io w) socket && listening (io w) socket);
      [|exact Hclosed].
    destruct event as [payload | payload | payload | payload];
      cbn [registerSocketEvents]; [| discriminate | |].
    + destruct (on_message_sessions socket payload w)
        as [-> | (sid & s & t & Hfind & Hopen & ->)]; [exact Hclosed|].
      apply closed_after_touch; [exact Hclosed|].
      intros ->. rewrite Hfind in Hclosed. cbn in Hclosed. congruence.
    + destruct (handleEndSession_sessions socket payload w)
        as [-> | (sid & t & ->)]; [exact Hclosed|].
      apply closed_after_touch; [exact Hclosed | reflexivity].
    + destruct (handleEndSession_sessions socket payload w)
        as [-> | (sid & t & ->)]; [exact Hclosed|].
      apply closed_after_touch; [exact Hclosed | reflexivity].
Qed.

Lemma ensureSession_none_io (v : string) (w : World) :
  io (snd (ensureSession v None w)) = io w.
Proof.
  open_world w. js.
  destruct (fault 0%nat); js; [reflexivity|].
  destruct (hd_error (orderBy session_created_at_desc
                        (filter (open_session_of v) sessions))); js;
    [reflexivity|].
  destruct (fault 1%nat); js; [reflexivity|].
  destruct (existsb (has_id (gen 0%nat)) sessions); js; reflexivity.
Qed.

(** Resolving leaves the socket.io server alone, whatever its outcome. *)
Lemma ensureSession_io (v : string) (req : option string) (w : World) :
  io (snd (ensureSession v req w)) = io w.
Proof.
  destruct (truthy req) eqn:Ht.
  - destruct req as [r|]; [|discriminate]. apply truthy_some in Ht.
    destruct (faults (ext w) 0%nat) eqn:Hf.
    { unfold ensureSession. cbv zeta. rewrite if_truthy_some by exact Ht.
      open_world w. js. rewrite Hf. reflexivity. }
    destruct (find (has_id r) (chatSession (db w))) as [s0|] eqn:Hfind.
    + destruct (ChatSession.status s0) eqn:Hst.
      * rewrite (ensureSession_reuse v r w s0) by (try assumption; congruence).
        reflexivity.
      * rewrite ensureSession_skip; try assumption; [|intros s' Hs'; congruence].
        exact (ensureSession_none_io v (set_ext take_fault w)).
    + rewrite ensureSession_skip; try assumption; [|intros s' Hs'; congruence].
      exact (ensureSession_none_io v (set_ext take_fault w)).
  - rewrite ensureSession_falsy by exact Ht. apply ensureSession_none_io.
Qed.

(** The session a transport is bound to by [handleConnection], if any. *)
Lemma handleConnection_binding (socket : SocketId) (handshake : Handshake.t)
    (w : World) :
  let w' := exec (handleConnection socket handshake) w in
  SocketData.sessionId (data (io w') socket)
    = SocketData.sessionId (data (io w) socket) \/
  exists s,
    ChatSession.status s <> CLOSED /\
    (In s (chatSession (db w)) \/
     existsb (has_id (ChatSession.id s)) (chatSession (db w)) = false) /\
    SocketData.sessionId (data (io w') socket) = Some (ChatSession.id s).
Proof.
  intros w'. subst w'. unfold exec, handleConnection.
  destruct (if_truthy (supplied_visitorId handshake) ret uuid w) as [[v|e] w0] eqn:Hv;
    [|destruct (supplied_visitorId handshake) as [[|c r]|]; discriminate].
  rewrite (bind_ok _ _ _ _ _ Hv). cbv zeta. unfold try_catch.
  assert (Hw0 : db w0 = db w /\ io w0 = io w).
  { apply visitor_phase in Hv. destruct Hv as [(_ & _ & ->) | (_ & _ & ->)];
      split; reflexivity. }
  destruct Hw0 as [Hdb0 Hio0]. rewrite <- Hdb0, <- Hio0. clear Hv Hdb0 Hio0.
  destruct (ensureSession v (requested_sessionId handshake) w0) as [[s|e] w1] eqn:Hs.
  - rewrite (bind_ok _ _ _ _ _ Hs).
    apply ensureSession_inversion in Hs. destruct Hs as (_ & Hst & Hcases).
    right. exists s. split; [exact Hst|]. split.
    { destruct Hcases as [[Hin _] | [Hfree _]]; [left | right]; assumption. }
    clear Hcases Hst. open_world w1. js.
    destruct (fault 0%nat); js;
      [unfold upd; rewrite Nat.eqb_refl; reflexivity|].
    destruct (map mapMessage
                (firstn 100 (orderBy message_created_at_asc
                   (filter (of_session (ChatSession.id s)) messages))));
      js; (destruct (fault 1%nat); js;
           [unfold upd; rewrite Nat.eqb_refl; reflexivity|]);
      (destruct (find (has_id (ChatSession.id s)) sessions); js;
       unfold upd; rewrite Nat.eqb_refl; reflexivity).
  - rewrite (bind_throw _ _ _ _ _ Hs). left.
    assert (Hio : io w1 = io w0)
      by (rewrite <- (ensureSession_io v (requested_sessionId handshake) w0), Hs;
          reflexivity).
    open_world w1. js. rewrite <- Hio. reflexivity.
Qed.

Lemma run_keeps_closed (inputs : list Input) (w : World) (sessionId : string) :
  unique_ids w -> forallb (fun i => negb (is_heartbeat i)) inputs = true ->
  status_of w sessionId = Some CLOSED ->
  unique_ids (run w inputs) /\ status_of (run w inputs) sessionId = Some CLOSED.
Proof.
  revert w. induction inputs as [|i inputs IH]; intros w Hnd Hno Hclosed; cbn.
  - split; assumption.
  - cbn in Hno. apply andb_true_iff in Hno. destruct Hno as [Hi Hno].
    apply negb_true_iff in Hi. apply IH.
    + apply step_unique_ids, Hnd.
    + exact Hno.
    + apply closed_stays_closed; assumption.
Qed.

(** Short of a heartbeat, a closed session is never bound again: after any
    inputs that contain no heartbeat, an attach is not bound to a session
    that was CLOSED before them. *)
Theorem closed_session_not_rebound (inputs : list Input) (w : World)
    (sessionId : string) (socket : SocketId) (handshake : Handshake.t) :
  unique_ids w -> forallb (fun i => negb (is_heartbeat i)) inputs = true ->
  status_of w sessionId = Some CLOSED ->
  SocketData.sessionId
    (data (io (step (run w inputs) (connection socket handshake))) socket)
  <> Some sessionId.
Proof.
  intros Hnd Hno Hclosed.
  destruct (run_keeps_closed inputs w sessionId Hnd Hno Hclosed) as [Hnd1 Hc1].
  set (w1 := run w inputs) in *. cbn [step].
  destruct (handleConnection_binding socket handshake (set_io (accept socket) w1))
    as [-> | (s & Hopen & Hs & ->)].
  - cbn. unfold upd. rewrite Nat.eqb_refl. discriminate.
  - change (chatSession (db (set_io (accept socket) w1)))
      with (chatSession (db w1)) in Hs.
    intros Heq. injection Heq as Heq. unfold status_of, unique_ids in *.
    destruct (find (has_id sessionId) (chatSession (db w1))) as [c|] eqn:Hc;
      [|discriminate].
    cbn in Hc1. injection Hc1 as Hcst. rewrite <- Heq in Hc.
    destruct Hs as [Hin | Hfree].
    + rewrite (unique_find _ _ Hnd1 Hin) in Hc. congruence.
    + rewrite (find_absent _ _ Hfree) in Hc. discriminate.
Qed.

(** * Further properties of the listeners *)

(** Case analysis along a run: simplify, then split on the next test the
    code makes, reusing what earlier tests have established. *)
Ltac crack :=
  repeat (js;
    match goal with
    | H : ?x = _ |- context [match ?x with Some _ => _ | None => _ end] => rewrite H
    | H : ?x = _ |- context [if ?x then _ else _] => rewrite H
    | |- context [if_truthy ?x _ _] => destruct x as [[|? ?]|] eqn:?
    | |- context [if ?x then _ else _] => destruct x eqn:?
    | |- context [match ?x with Some _ => _ | None => _ end] => destruct x eqn:?
    | |- context [match ?x with [] => _ | _ :: _ => _ end] => destruct x eqn:?
    end); js.

Ltac as_new_events :=
  apply new_events_app; cbn [io emitted]; rewrite <- ?app_assoc; reflexivity.

Lemma fan_out_member (w : World) (room : string) (k : SocketId)
    (ev : ServerToClientEvents.t) :
  In (room, k) (rooms (io w)) -> In (k, ev) (fan_out w room ev).
Proof.
  intros Hin. unfold fan_out. apply in_map_iff. exists (room, k).
  split; [reflexivity|]. apply filter_In. split; [exact Hin|].
  unfold in_room. cbn. apply String.eqb_refl.
Qed.

Lemma fan_out_members (w : World) (room : string) (k : SocketId)
    (ev ev' : ServerToClientEvents.t) :
  In (k, ev') (fan_out w room ev) -> ev' = ev /\ In (room, k) (rooms (io w)).
Proof.
  unfold fan_out. intros Hin. apply in_map_iff in Hin.
  destruct Hin as ([room' k'] & Heq & Hin). cbn in Heq. injection Heq as -> ->.
  apply filter_In in Hin. destruct Hin as [Hin Hroom].
  unfold in_room in Hroom. cbn in Hroom. apply String.eqb_eq in Hroom.
  subst room'. split; [reflexivity | exact Hin].
Qed.



(** Once the USER message is persisted, the turn ends with the reply
    persisted and fanned out, or with one [error] event for the sender. *)
Lemma on_message_after_insert (socket : SocketId)
    (payload : IncomingMessagePayload.t) (w : World)
    (sessionId content : string) :
  persists_user_message socket payload w sessionId content ->
  let w' := exec (on_message socket payload) w in
  let um := user_message w sessionId content in
  (chatMessage (db w') = chatMessage (db w) ++ [um] /\
   new_events w w' =
     fan_out w sessionId (ServerToClientEvents.message (mapMessage um)) ++
     [(socket, ServerToClientEvents.error
                 "Unable to send message right now. Please try again.")]) \/
  (exists aiReply,
     n8n_replies (ext w) 0%nat = Some aiReply /\
     chatMessage (db w')
       = chatMessage (db w) ++ [um; bot_message w sessionId aiReply] /\
     new_events w w' =
       fan_out w sessionId (ServerToClientEvents.message (mapMessage um)) ++
       fan_out w sessionId
         (ServerToClientEvents.message
            (mapMessage (bot_message w sessionId aiReply)))).
Proof.
  intros [Hid Hne (text & Hc & Ht) Hcne (s & Hfind & Hst) Ha Hfree] w' um.
  subst w' um. apply not_CLOSED in Hst.
  pose proof (Ha 0%nat ltac:(lia)) as Hf0.
  pose proof (Ha 1%nat ltac:(lia)) as Hf1. clear Ha. subst content.
  unfold user_message, bot_message, fan_out. open_world w. js.
  rewrite Hid, if_truthy_some by assumption.
  rewrite Hc. cbn [option_map]. rewrite if_truthy_some by assumption.
  js. rewrite Hf0. js. rewrite Hfind. js. rewrite Hst. js.
  rewrite Hf1. js. rewrite Hfree. js.
  destruct (fault 2%nat) eqn:Hf2; js; [left; split; [reflexivity | as_new_events]|].
  rewrite Hfind. js.
  destruct (fault 3%nat) eqn:Hf3; js; [left; split; [reflexivity | as_new_events]|].
  destruct (reply 0%nat) as [aiReply|] eqn:Hreply; js;
    [|left; split; [reflexivity | as_new_events]].
  destruct (fault 4%nat) eqn:Hf4; js; [left; split; [reflexivity | as_new_events]|].
  match goal with |- context [existsb ?f ?l] => destruct (existsb f l) end; js;
    [left; split; [reflexivity | as_new_events]|].
  right. exists aiReply. split; [reflexivity|].
  split; [rewrite <- app_assoc; reflexivity | as_new_events].
Qed.

(** X2: the USER message is kept, come what may.  Take one run of the
    listener from its start to its end, no write and no emit of another
    listener falling between its awaits.  Once the listener has persisted
    the USER message, its run ends in one of two ways, whatever the
    repository and the webhook do afterwards: either the listener appends
    nothing more and, after the fan-out of the USER message, the sender
    alone gets one [error] event; or it appends the reply of the webhook as
    BOT message, later than the USER message, and fans it out after the
    USER message.  Either way the USER message stays in the table and was
    fanned out. *)
Theorem user_message_is_kept (socket : SocketId)
    (payload : IncomingMessagePayload.t) (w : World)
    (sessionId content : string) :
  persists_user_message socket payload w sessionId content ->
  let w' := exec (on_message socket payload) w in
  let um := user_message w sessionId content in
  (chatMessage (db w') = chatMessage (db w) ++ [um] /\
   new_events w w' =
     fan_out w sessionId (ServerToClientEvents.message (mapMessage um)) ++
     [(socket, ServerToClientEvents.error
                 "Unable to send message right now. Please try again.")]) \/
  (exists aiReply,
     n8n_replies (ext w) 0%nat = Some aiReply /\
     chatMessage (db w')
       = chatMessage (db w) ++ [um; bot_message w sessionId aiReply] /\
     new_events w w' =
       fan_out w sessionId (ServerToClientEvents.message (mapMessage um)) ++
       fan_out w sessionId
         (ServerToClientEvents.message
            (mapMessage (bot_message w sessionId aiReply)))).
Proof. exact (on_message_after_insert socket payload w sessionId content). Qed.

Lemma user_message_is_kept_witness :
  let w := set_ext oracle_down one_tab in
  let w' := exec (on_message 0%nat
                    (IncomingMessagePayload.mk None (Some "hi") None)) w in
  map ChatMessage.role (chatMessage (db w')) = [USER] \/
  map ChatMessage.role (chatMessage (db w')) = [USER; BOT].
Proof.
  intros w w'.
  destruct (user_message_is_kept 0%nat
              (IncomingMessagePayload.mk None (Some "hi") None) w
              "a-generated" "hi")
    as [[Hm _] | (aiReply & _ & Hm & _)].
  - constructor.
    + reflexivity.
    + discriminate.
    + exists "hi". split; reflexivity.
    + discriminate.
    + exists (ChatSession.mk "a-generated" "v1" ACTIVE 1000 1001 None).
      split; [reflexivity | discriminate].
    + intros i _. reflexivity.
    + reflexivity.
  - left. fold w' in Hm. rewrite Hm. reflexivity.
  - right. fold w' in Hm. rewrite Hm. reflexivity.
Defined.

(** X3: a heartbeat is silent.  Whatever the payload and whatever the
    repository does, the listener returns normally, emits no event, writes
    no message, calls no webhook and leaves every socket, its data and its
    rooms as they were; the session table has the same rows, in the same
    order, with the same ids, owners and creation times. *)
Theorem heartbeat_is_silent (socket : SocketId) (payload : HeartbeatPayload.t)
    (w : World) :
  let w' := exec (on_heartbeat socket payload) w in
  fst (on_heartbeat socket payload w) = Ok tt /\
  io w' = io w /\
  chatMessage (db w') = chatMessage (db w) /\
  n8n_calls (ext w') = n8n_calls (ext w) /\
  map ChatSession.id (chatSession (db w')) = map ChatSession.id (chatSession (db w)) /\
  map ChatSession.visitor_id (chatSession (db w'))
    = map ChatSession.visitor_id (chatSession (db w)) /\
  map ChatSession.created_at (chatSession (db w'))
    = map ChatSession.created_at (chatSession (db w)).
Proof.
  intros w'. subst w'. open_world w. crack.
  all: repeat split.
  all: rewrite map_map; apply map_ext; intros r;
    match goal with |- context [if ?b then _ else _] => destruct b end;
    reflexivity.
Qed.

(** X4: what a heartbeat writes.  A heartbeat whose session id resolves to
    an existing session sets that session's last-active timestamp to the
    current time and its status to ACTIVE, whatever the status was, and
    leaves every other session as it is; when the repository rejects the
    update or no session has that id, the tables are left as they were. *)
Theorem heartbeat_touches_session (socket : SocketId)
    (payload : HeartbeatPayload.t) (w : World) (sessionId : string) :
  nullish (HeartbeatPayload.sessionId payload)
          (SocketData.sessionId (data (io w) socket)) = Some sessionId ->
  sessionId <> "" ->
  let w' := exec (on_heartbeat socket payload) w in
  (forall s,
     faults (ext w) 0%nat = false ->
     find (has_id sessionId) (chatSession (db w)) = Some s ->
     find (has_id sessionId) (chatSession (db w'))
       = Some (touch (dates (ext w) 0%nat) ACTIVE s) /\
     forall other, other <> sessionId ->
       find (has_id other) (chatSession (db w'))
         = find (has_id other) (chatSession (db w))) /\
  (faults (ext w) 0%nat = true \/
   find (has_id sessionId) (chatSession (db w)) = None ->
   db w' = db w).
Proof.
  intros Hid Hne w'. subst w'. open_world w. js.
  rewrite Hid, if_truthy_some by exact Hne. split.
  - intros s Hf Hfind. js. rewrite Hf. js. rewrite Hfind. js. split.
    + apply find_touched_some, Hfind.
    + intros other Ho. apply find_other_touched, Ho.
  - intros Hfail. js. destruct (fault 0%nat) eqn:Hf; js; [reflexivity|].
    destruct (find (has_id sessionId) sessions) eqn:Hfind; js; [|reflexivity].
    destruct Hfail; discriminate.
Qed.

Lemma heartbeat_touches_session_witness :
  let w' := exec (on_heartbeat 0%nat (HeartbeatPayload.mk None)) one_tab in
  find (has_id "a-generated") (chatSession (db w'))
    = Some (ChatSession.mk "a-generated" "v1" ACTIVE 1000 1002 None) /\
  db (exec (on_heartbeat 0%nat (HeartbeatPayload.mk (Some "gone"))) one_tab)
    = db one_tab.
Proof.
  intros w'. split.
  - destruct (heartbeat_touches_session 0%nat (HeartbeatPayload.mk None) one_tab
                "a-generated" eq_refl ltac:(discriminate)) as [Hok _].
    destruct (Hok (ChatSession.mk "a-generated" "v1" ACTIVE 1000 1001 None)
                eq_refl eq_refl) as [Hfind _].
    exact Hfind.
  - destruct (heartbeat_touches_session 0%nat (HeartbeatPayload.mk (Some "gone"))
                one_tab "gone" eq_refl ltac:(discriminate)) as [_ Hfail].
    apply Hfail. right. reflexivity.
Defined.

(** ** Attaching, in general *)

Ltac open_parts w :=
  destruct w as [[? ?] [? ? ? ? ?] [? ? ? ? ?]];
  cbn [db io ext chatSession chatMessage data rooms connected listening emitted
       faults uuids dates n8n_replies n8n_calls] in *.

Lemma not_member_after_disconnect (socket : SocketId) (room : string)
    (members : list (string * SocketId)) :
  ~ In (room, socket)
       (filter (fun m => negb (Nat.eqb (snd m) socket)) members).
Proof.
  intros Hin. apply filter_In in Hin. destruct Hin as [_ Hk].
  cbn in Hk. rewrite Nat.eqb_refl in Hk. discriminate.
Qed.

(** How [handleConnection] ends: the socket is bound to a session that is
    ACTIVE, or it is disconnected after an [error] event. *)
Lemma handleConnection_outcome (socket : SocketId) (handshake : Handshake.t)
    (w : World) :
  let w' := exec (handleConnection socket handshake) w in
  (exists i v st hist,
     listening (io w') socket = true /\
     connected (io w') = connected (io w) /\
     data (io w') socket = SocketData.mk (Some i) (Some v) /\
     rooms (io w') =
       (if existsb (is_member i socket) (rooms (io w)) then rooms (io w)
        else rooms (io w) ++ [(i, socket)]) /\
     status_of w' i = Some ACTIVE /\
     (length hist <= 100)%nat /\
     emitted (io w') =
       emitted (io w) ++
       (socket, ServerToClientEvents.session i v st) :: replay socket hist) \/
  (connected (io w') = upd socket false (connected (io w)) /\
   (forall room, ~ In (room, socket) (rooms (io w'))) /\
   exists before,
     Forall (announcement socket) before /\
     emitted (io w') = emitted (io w) ++ before ++ [attach_error socket]).
Proof.
  intros w'. subst w'. unfold exec, handleConnection.
  destruct (if_truthy (supplied_visitorId handshake) ret uuid w) as [[v|e] w0] eqn:Hv;
    [|destruct (supplied_visitorId handshake) as [[|c r]|]; discriminate].
  rewrite (bind_ok _ _ _ _ _ Hv). cbv zeta. unfold try_catch.
  rewrite <- (visitor_phase_io _ _ _ _ Hv). clear Hv.
  destruct (ensureSession v (requested_sessionId handshake) w0) as [[s|e] w1] eqn:Hs.
  - rewrite (bind_ok _ _ _ _ _ Hs).
    destruct (ensureSession_result _ _ _ _ _ Hs) as [Hin Hio].
    apply find_of_In in Hin. destruct Hin as (s' & Hfind). rewrite <- Hio.
    clear Hs Hio. open_world w1. js.
    pose proof (history_rows_length (mkDb sessions messages) (ChatSession.id s) 100)
      as Hlen. unfold history_rows in Hlen. cbn [chatMessage] in Hlen.
    destruct (fault 0%nat); js.
    { right. repeat split.
      - intros room. apply not_member_after_disconnect.
      - eexists [_]. split; [|rewrite <- app_assoc; reflexivity].
        repeat constructor. }
    destruct (map mapMessage
                (firstn 100 (orderBy message_created_at_asc
                   (filter (of_session (ChatSession.id s)) messages))))
      as [|d0 h] eqn:Hh; js.
    + destruct (fault 1%nat); js.
      { right. repeat split.
        - intros room. apply not_member_after_disconnect.
        - eexists [_]. split; [|rewrite <- app_assoc; reflexivity].
          repeat constructor. }
      rewrite Hfind. js. left.
      exists (ChatSession.id s), v, (ChatSession.status s), [].
      unfold status_of. cbn [db chatSession].
      rewrite (find_touched_some _ _ _ _ _ Hfind).
      repeat split; try (unfold upd; rewrite Nat.eqb_refl; reflexivity).
      cbn. lia.
    + destruct (fault 1%nat); js.
      { right. repeat split.
        - intros room. apply not_member_after_disconnect.
        - eexists [_; _]. split; [|rewrite <- !app_assoc; reflexivity].
          repeat constructor. }
      rewrite Hfind. js. left.
      exists (ChatSession.id s), v, (ChatSession.status s), (d0 :: h).
      unfold status_of. cbn [db chatSession].
      rewrite (find_touched_some _ _ _ _ _ Hfind).
      repeat split; try (unfold upd; rewrite Nat.eqb_refl; reflexivity);
        try exact Hlen.
      rewrite <- app_assoc. reflexivity.
  - rewrite (bind_throw _ _ _ _ _ Hs).
    assert (Hio : io w1 = io w0)
      by (rewrite <- (ensureSession_io v (requested_sessionId handshake) w0), Hs;
          reflexivity).
    rewrite <- Hio. clear Hs Hio. open_world w1. js. right. repeat split.
    + intros room. apply not_member_after_disconnect.
    + exists []. split; [constructor | reflexivity].
Qed.

Lemma accepted_in_no_room (socket : SocketId) (room : string)
    (members : list (string * SocketId)) :
  existsb (is_member room socket)
          (filter (fun m => negb (Nat.eqb (snd m) socket)) members) = false.
Proof.
  induction members as [|[r k] members IH]; cbn; [reflexivity|].
  destruct (Nat.eqb k socket) eqn:Hk; cbn; [exact IH|].
  unfold is_member at 1. cbn. rewrite Hk, andb_false_r. exact IH.
Qed.

(** X5: how an attach ends.  A connection either ends attached (the socket
    is connected with its listeners installed, bound to one session id, a
    member of that session's room and of no other, the session is ACTIVE in
    the table, and the socket has received the [session] event followed by
    at most one [history] event of at most 100 messages) or it ends refused
    (the socket is disconnected, in no room, and the last event it received
    is the one [error] event of the attach).  No other socket receives
    anything or is disconnected. *)
Theorem attach_binds_or_disconnects (socket : SocketId)
    (handshake : Handshake.t) (w : World) :
  let w' := step w (connection socket handshake) in
  (forall k, k <> socket -> connected (io w') k = connected (io w) k) /\
  ((exists i v st hist,
      connected (io w') socket = true /\
      listening (io w') socket = true /\
      data (io w') socket = SocketData.mk (Some i) (Some v) /\
      (forall room, In (room, socket) (rooms (io w')) <-> room = i) /\
      status_of w' i = Some ACTIVE /\
      (length hist <= 100)%nat /\
      new_events w w' =
        (socket, ServerToClientEvents.session i v st) :: replay socket hist) \/
   (connected (io w') socket = false /\
    (forall room, ~ In (room, socket) (rooms (io w'))) /\
    exists before,
      Forall (announcement socket) before /\
      new_events w w' = before ++ [attach_error socket])).
Proof.
  intros w'. subst w'. cbn [step].
  destruct (handleConnection_outcome socket handshake (set_io (accept socket) w))
    as [(i & v & st & hist & Hl & Hc & Hd & Hr & Hst & Hlen & He)
       | (Hc & Hr & before & Hb & He)];
    cbn [set_io io accept connected rooms emitted] in *.
  - split.
    + intros k Hk. rewrite Hc. unfold upd. apply Nat.eqb_neq in Hk.
      rewrite Hk. reflexivity.
    + left. exists i, v, st, hist. repeat apply conj; try assumption.
      * rewrite Hc. unfold upd. rewrite Nat.eqb_refl. reflexivity.
      * intros room. rewrite Hr, accepted_in_no_room, in_app_iff. split.
        -- intros [Hin | [Heq | []]].
           ++ exfalso. exact (not_member_after_disconnect _ _ _ Hin).
           ++ congruence.
        -- intros ->. right. left. reflexivity.
      * apply new_events_app. exact He.
  - split.
    + intros k Hk. rewrite Hc. unfold upd. apply Nat.eqb_neq in Hk.
      rewrite !Hk. reflexivity.
    + right. repeat apply conj.
      * rewrite Hc. unfold upd. rewrite Nat.eqb_refl. reflexivity.
      * exact Hr.
      * exists before. split; [exact Hb|]. apply new_events_app. exact He.
Qed.



(** ** The resolver, path by path *)

Lemma ensureSession_none_paths (v : string) (w w1 : World) (s : ChatSession.t) :
  ensureSession v None w = (Ok s, w1) ->
  (faults (ext w) 0%nat = false /\
   hd_error (orderBy session_created_at_desc
               (filter (open_session_of v) (chatSession (db w)))) = Some s /\
   w1 = set_ext take_fault w) \/
  (faults (ext w) 0%nat = false /\ faults (ext w) 1%nat = false /\
   filter (open_session_of v) (chatSession (db w)) = [] /\
   existsb (has_id (uuids (ext w) 0%nat)) (chatSession (db w)) = false /\
   s = created_session w v /\ w1 = after_create w v).
Proof.
  open_world w. js.
  destruct (fault 0%nat) eqn:Hf0; js; [discriminate|].
  destruct (hd_error (orderBy session_created_at_desc
                        (filter (open_session_of v) sessions))) as [e|] eqn:Hhd;
    js.
  - intros H. injection H as <- <-. left. repeat split; try assumption;
      reflexivity.
  - destruct (fault 1%nat) eqn:Hf1; js; [discriminate|].
    destruct (existsb (has_id (gen 0%nat)) sessions) eqn:Hfree; js; [discriminate|].
    intros H. injection H as <- <-. right. repeat split; try assumption.
    apply orderBy_none in Hhd. exact Hhd.
Qed.

(** A successful resolution took one of three paths: step 1 returned the
    requested session; or steps 1 and 2 fell through and step 3 returned the
    visitor's latest open session; or step 4 created one. *)
Lemma ensureSession_paths (v : string) (req : option string) (w w1 : World)
    (s : ChatSession.t) :
  ensureSession v req w = (Ok s, w1) ->
  (exists r, req = Some r /\ r <> "" /\ faults (ext w) 0%nat = false /\
             find (has_id r) (chatSession (db w)) = Some s /\
             ChatSession.status s <> CLOSED /\ w1 = set_ext take_fault w) \/
  (exists wa, falls_through req w wa /\ ensureSession v None wa = (Ok s, w1)).
Proof.
  destruct (truthy req) eqn:Ht.
  - destruct req as [r|]; [|discriminate]. apply truthy_some in Ht.
    destruct (faults (ext w) 0%nat) eqn:Hf.
    { unfold ensureSession. cbv zeta. rewrite if_truthy_some by exact Ht.
      open_world w. js. rewrite Hf. discriminate. }
    destruct (find (has_id r) (chatSession (db w))) as [s0|] eqn:Hfind.
    + destruct (ChatSession.status s0) eqn:Hst.
      * rewrite (ensureSession_reuse v r w s0) by (try assumption; congruence).
        intros H. injection H as <- <-. left. exists r.
        repeat split; try assumption. congruence.
      * rewrite ensureSession_skip; try assumption; [|intros s' Hs'; congruence].
        intros H. right. exists (set_ext take_fault w). split; [|exact H].
        right. exists r. repeat split; try assumption. congruence.
    + rewrite ensureSession_skip; try assumption; [|intros s' Hs'; congruence].
      intros H. right. exists (set_ext take_fault w). split; [|exact H].
      right. exists r. repeat split; try assumption. congruence.
  - rewrite ensureSession_falsy by exact Ht. intros H. right. exists w.
    split; [left; split; [exact Ht | reflexivity] | exact H].
Qed.

Lemma falls_through_db (req : option string) (w wa : World) :
  falls_through req w wa -> db wa = db w /\ io wa = io w.
Proof.
  intros [[_ ->] | (r & _ & _ & _ & _ & ->)]; split; reflexivity.
Qed.

(** X7: whom the resolver returns.  A session returned by the resolver is
    never CLOSED, is a row of the table as the resolver leaves it, and is
    either the session that was requested by id or a session owned by the
    visitor. *)
Theorem resolved_session_is_requested_or_owned (v : string)
    (req : option string) (w w1 : World) (s : ChatSession.t) :
  ensureSession v req w = (Ok s, w1) ->
  ChatSession.status s <> CLOSED /\
  In s (chatSession (db w1)) /\
  (req = Some (ChatSession.id s) \/ ChatSession.visitor_id s = v).
Proof.
  intros H. pose proof (ensureSession_result _ _ _ _ _ H) as [Hin _].
  pose proof (ensureSession_inversion _ _ _ _ _ H) as (_ & Hopen & _).
  split; [exact Hopen|]. split; [exact Hin|].
  apply ensureSession_paths in H.
  destruct H as [(r & -> & _ & _ & Hfind & _) | (wa & Hft & Hnone)].
  - left. apply find_some in Hfind. destruct Hfind as [_ Hid].
    apply String.eqb_eq in Hid. rewrite Hid. reflexivity.
  - right. apply ensureSession_none_paths in Hnone.
    destruct Hnone as [(_ & Hhd & _) | (_ & _ & _ & _ & -> & _)].
    + apply open_sessions_first in Hhd. apply Hhd.
    + reflexivity.
Qed.

Lemma resolved_session_is_requested_or_owned_witness :
  ChatSession.status (s2 ACTIVE) <> CLOSED /\
  In (s2 ACTIVE) (chatSession (db (set_ext take_fault (set_ext take_fault
                    (world_with [s1 CLOSED; s2 ACTIVE] []))))) /\
  (Some "s1" = Some (ChatSession.id (s2 ACTIVE)) \/
   ChatSession.visitor_id (s2 ACTIVE) = "v1").
Proof.
  apply (resolved_session_is_requested_or_owned "v1" (Some "s1")
           (world_with [s1 CLOSED; s2 ACTIVE] [])).
  reflexivity.
Defined.

Lemma find_app_none {A} (f : A -> bool) (l l' : list A) :
  find f l = None -> find f (l ++ l') = find f l'.
Proof.
  induction l as [|y l IH]; cbn; [reflexivity|].
  destruct (f y); [discriminate | exact IH].
Qed.

(** Steps 1 and 2 falling through, step 3 returns the head of the visitor's
    open sessions. *)
Lemma ensureSession_converges (v : string) (req : option string) (w : World)
    (s : ChatSession.t) :
  answers w 2 ->
  (forall s0, ~ reattachable w req s0) ->
  hd_error (orderBy session_created_at_desc
              (filter (open_session_of v) (chatSession (db w)))) = Some s ->
  exists w2, ensureSession v req w = (Ok s, w2) /\ db w2 = db w.
Proof.
  intros Ha Hno Hhd.
  destruct (not_reattachable_cases w req Hno) as [Hf | (r & -> & Hr & Hclosed)].
  - rewrite ensureSession_falsy by exact Hf.
    exists (set_ext take_fault w). split; [|reflexivity].
    apply ensureSession_converge; [apply (Ha 0%nat); lia | exact Hhd].
  - rewrite ensureSession_skip; try assumption; [|apply (Ha 0%nat); lia].
    exists (set_ext take_fault (set_ext take_fault w)). split; [|reflexivity].
    apply ensureSession_converge; [apply (Ha 1%nat); lia | exact Hhd].
Qed.

Lemma falls_through_not_reattachable (req : option string) (w wa w1 : World) :
  falls_through req w wa -> db w1 = db w ->
  forall s0, ~ reattachable w1 req s0.
Proof.
  intros Hft Hdb s0 (r & -> & Hr & Hfind & Hopen). rewrite Hdb in Hfind.
  destruct Hft as [[Hf _] | (r' & Heq & _ & _ & Hclosed & _)].
  - apply truthy_some in Hr. congruence.
  - injection Heq as <-. apply Hopen, Hclosed, Hfind.
Qed.

(** X8: resolving twice.  Resolving again with the same visitor and the
    same requested id, in the world the first resolution left behind and
    with the repository answering, returns the same session and writes
    nothing: neither a reconnect nor a second tab creates a second
    session. *)
Theorem ensureSession_idempotent (v : string) (req : option string)
    (w w1 : World) (s : ChatSession.t) :
  ensureSession v req w = (Ok s, w1) ->
  answers w1 2 ->
  exists w2, ensureSession v req w1 = (Ok s, w2) /\ db w2 = db w1.
Proof.
  intros H Ha. apply ensureSession_paths in H.
  destruct H as [(r & -> & Hr & _ & Hfind & Hopen & ->) | (wa & Hft & Hnone)].
  - exists (set_ext take_fault (set_ext take_fault w)). split; [|reflexivity].
    apply ensureSession_reuse; try assumption. apply (Ha 0%nat). lia.
  - destruct (falls_through_db _ _ _ Hft) as [Hdba _].
    apply ensureSession_none_paths in Hnone.
    destruct Hnone as [(_ & Hhd & ->) | (_ & _ & Hnone & Hfree & -> & ->)].
    + apply ensureSession_converges; try assumption.
      apply (falls_through_not_reattachable req w wa); [exact Hft|].
      cbn. exact Hdba.
    + set (new := created_session wa v) in *.
      assert (Hhd : hd_error (orderBy session_created_at_desc
                       (filter (open_session_of v)
                          (chatSession (db (after_create wa v))))) = Some new).
      { cbn [after_create db chatSession]. rewrite filter_app, Hnone.
        cbn [app filter]. unfold open_session_of, new, created_session.
        cbn [ChatSession.visitor_id ChatSession.status status_eqb negb].
        rewrite String.eqb_refl. reflexivity. }
      destruct req as [r|].
      2:{ apply ensureSession_converges; try assumption.
          intros s0 (r & Hr & _). discriminate. }
      destruct (truthy (Some r)) eqn:Ht.
      2:{ apply ensureSession_converges; try assumption.
          intros s0 (r' & Hr' & Hne & _). injection Hr' as <-.
          apply truthy_some in Hne. congruence. }
      apply truthy_some in Ht.
      destruct (find (has_id r) (chatSession (db (after_create wa v))))
        as [c|] eqn:Hc.
      * destruct (ChatSession.status c) eqn:Hst.
        -- assert (c = new).
           { cbn [after_create db chatSession] in Hc.
             destruct (find (has_id r) (chatSession (db wa))) as [c0|] eqn:Hc0.
             - rewrite (find_app_found _ _ _ _ Hc0) in Hc. injection Hc as <-.
               exfalso.
               apply (falls_through_not_reattachable (Some r) w wa wa Hft Hdba c0).
               exists r. repeat split; try assumption. congruence.
             - rewrite (find_app_none _ _ _ Hc0) in Hc. cbn [find] in Hc.
               fold new in Hc.
               destruct (has_id r new); [congruence | discriminate]. }
           subst c. exists (set_ext take_fault (after_create wa v)).
           split; [|reflexivity].
           apply ensureSession_reuse; try assumption;
             [apply (Ha 0%nat); lia | congruence].
        -- apply ensureSession_converges; try assumption.
           intros s0 (r' & Hr' & _ & Hfind & Hopen). injection Hr' as <-.
           congruence.
      * apply ensureSession_converges; try assumption.
        intros s0 (r' & Hr' & _ & Hfind & _). injection Hr' as <-. congruence.
Qed.

Lemma ensureSession_idempotent_witness :
  exists w2,
    ensureSession "v1" None (after_create empty_world "v1")
      = (Ok (created_session empty_world "v1"), w2) /\
    db w2 = db (after_create empty_world "v1").
Proof.
  apply (ensureSession_idempotent "v1" None empty_world).
  - reflexivity.
  - intros i _. reflexivity.
Defined.

(** X9: a resolution that fails.  When the resolver throws, it has written
    nothing and has not touched the socket.io server; and it does not throw
    when the repository answers its (at most three) calls and the generated
    id is not taken. *)
Theorem ensureSession_failure_is_clean (v : string) (req : option string)
    (w : World) :
  (forall e w1, ensureSession v req w = (Throw e, w1) ->
                db w1 = db w /\ io w1 = io w) /\
  (answers w 3 ->
   existsb (has_id (uuids (ext w) 0%nat)) (chatSession (db w)) = false ->
   exists s w1, ensureSession v req w = (Ok s, w1)).
Proof.
  split.
  - intros e w1 H. split.
    + apply (ensureSession_throw_db _ _ _ _ _ H).
    + rewrite <- (ensureSession_io v req w), H. reflexivity.
  - intros Ha Hfree.
    pose proof (Ha 0%nat ltac:(lia)) as Hf0.
    pose proof (Ha 1%nat ltac:(lia)) as Hf1.
    pose proof (Ha 2%nat ltac:(lia)) as Hf2. clear Ha.
    open_world w. unfold ensureSession. crack.
    all: try (eexists; eexists; reflexivity).
    all: congruence.
Qed.

(** ** Rooms *)

Lemma member_kept_by_accept (room : string) (k socket : SocketId)
    (members : list (string * SocketId)) :
  k <> socket -> In (room, k) members ->
  In (room, k) (filter (fun m => negb (Nat.eqb (snd m) socket)) members).
Proof.
  intros Hk Hin. apply filter_In. split; [exact Hin|]. cbn.
  apply Nat.eqb_neq in Hk. rewrite Hk. reflexivity.
Qed.

(** X10: a second tab.  When a socket is in the room of a session that is
    not CLOSED and another transport attaches naming that session, both
    sockets are in the room afterwards and the new one is bound to the
    session: the first tab keeps receiving what is fanned out. *)
Theorem second_tab_shares_the_room (first second : SocketId)
    (handshake : Handshake.t) (w : World) (i : string) (s : ChatSession.t) :
  first <> second ->
  In (i, first) (rooms (io w)) ->
  requested_sessionId handshake = Some i -> i <> "" ->
  find (has_id i) (chatSession (db w)) = Some s ->
  ChatSession.status s <> CLOSED ->
  answers w 3 ->
  let w' := step w (connection second handshake) in
  In (i, first) (rooms (io w')) /\ In (i, second) (rooms (io w')) /\
  SocketData.sessionId (data (io w') second) = Some i /\
  data (io w') first = data (io w) first.
Proof.
  intros Hne Hfirst Hr Hi Hfind Hopen Ha w'. subst w'. cbn [step].
  set (w1 := set_io (accept second) w).
  assert (Hid : ChatSession.id s = i).
  { apply find_some in Hfind. destruct Hfind as [_ H].
    apply String.eqb_eq in H. exact H. }
  destruct (if_truthy (supplied_visitorId handshake) ret uuid w1)
    as [[v|e] w0] eqn:Hv;
    [|destruct (supplied_visitorId handshake) as [[|c r]|]; discriminate].
  assert (Hw0 : db w0 = db w1 /\ io w0 = io w1 /\ faults (ext w0) = faults (ext w1)).
  { apply visitor_phase in Hv. destruct Hv as [(_ & _ & ->) | (_ & _ & ->)];
      repeat split. }
  destruct Hw0 as (Hdb0 & Hio0 & Hf0).
  assert (Hs : ensureSession v (requested_sessionId handshake) w0
               = (Ok s, set_ext take_fault w0)).
  { rewrite Hr. apply ensureSession_reuse; try assumption.
    - rewrite Hf0. apply (Ha 0%nat). lia.
    - rewrite Hdb0. exact Hfind. }
  assert (Ha1 : answers (set_ext take_fault w0) 2).
  { intros n Hn. cbn. unfold advance. rewrite Hf0. apply (Ha (S n)). lia. }
  destruct (handleConnection_attaches second handshake w1 w0
              (set_ext take_fault w0) v s Hv Hs Ha1)
    as (_ & Hd & Hother & Hrooms & _).
  rewrite Hid in *. cbn [set_ext io] in Hrooms, Hother.
  rewrite Hio0 in Hrooms, Hother.
  cbn [w1 set_io io rooms accept] in Hrooms. rewrite accepted_in_no_room in Hrooms.
  repeat apply conj.
  - rewrite Hrooms. apply in_or_app. left.
    apply member_kept_by_accept; assumption.
  - rewrite Hrooms. apply in_or_app. right. left. reflexivity.
  - rewrite Hd. reflexivity.
  - rewrite (Hother first Hne). cbn. unfold upd.
    apply Nat.eqb_neq in Hne. rewrite Hne. reflexivity.
Qed.

Lemma second_tab_shares_the_room_witness :
  let w' := step one_tab (connection 1%nat (visitor "v1" (Some "a-generated"))) in
  In ("a-generated", 0%nat) (rooms (io w')) /\
  In ("a-generated", 1%nat) (rooms (io w')).
Proof.
  intros w'.
  destruct (second_tab_shares_the_room 0%nat 1%nat
              (visitor "v1" (Some "a-generated")) one_tab "a-generated"
              (ChatSession.mk "a-generated" "v1" ACTIVE 1000 1001 None))
    as (H0 & H1 & _); try reflexivity; try discriminate.
  - left. reflexivity.
  - intros n _. reflexivity.
  - split; [exact H0 | exact H1].
Defined.

(** X11: fan-out reaches every tab.  Whenever the listener persists the
    USER message, every socket that is in the room of the session receives
    it as a [message] event, whatever happens to the rest of the turn. *)
Theorem user_message_reaches_every_tab (socket : SocketId)
    (payload : IncomingMessagePayload.t) (w : World)
    (sessionId content : string) (k : SocketId) :
  persists_user_message socket payload w sessionId content ->
  In (sessionId, k) (rooms (io w)) ->
  In (k, ServerToClientEvents.message
           (mapMessage (user_message w sessionId content)))
     (new_events w (exec (on_message socket payload) w)).
Proof.
  intros H Hk.
  destruct (on_message_after_insert socket payload w sessionId content H)
    as [[_ He] | (aiReply & _ & _ & He)];
    rewrite He; apply in_or_app; left; apply fan_out_member, Hk.
Qed.

Lemma user_message_reaches_every_tab_witness :
  In (0%nat, ServerToClientEvents.message
               (mapMessage (user_message one_tab "a-generated" "hi")))
     (new_events one_tab
        (exec (on_message 0%nat
                 (IncomingMessagePayload.mk None (Some "hi") None)) one_tab)).
Proof.
  apply (user_message_reaches_every_tab 0%nat
           (IncomingMessagePayload.mk None (Some "hi") None) one_tab
           "a-generated" "hi" 0%nat).
  - constructor.
    + reflexivity.
    + discriminate.
    + exists "hi". split; reflexivity.
    + discriminate.
    + exists (ChatSession.mk "a-generated" "v1" ACTIVE 1000 1001 None).
      split; [reflexivity | discriminate].
    + intros i _. reflexivity.
    + reflexivity.
  - left. reflexivity.
Defined.

Lemma Forall_fan_out (P : SocketId * ServerToClientEvents.t -> Prop)
    (room : string) (ev : ServerToClientEvents.t)
    (members : list (string * SocketId)) :
  (forall k, In (room, k) members -> P (k, ev)) ->
  Forall P (map (fun m => (snd m, ev)) (filter (in_room room) members)).
Proof.
  intros HP. apply Forall_forall. intros d Hd. apply in_map_iff in Hd.
  destruct Hd as ([room' k] & <- & Hin). apply filter_In in Hin.
  destruct Hin as [Hin Hroom]. unfold in_room in Hroom. cbn in Hroom.
  apply String.eqb_eq in Hroom. subst room'. apply HP, Hin.
Qed.

(** The events of a run of the [message] listener. *)
Lemma on_message_events (socket : SocketId) (payload : IncomingMessagePayload.t)
    (w : World) :
  exists l,
    emitted (io (exec (on_message socket payload) w)) = emitted (io w) ++ l /\
    Forall (sender_or_room w socket
              (nullish (IncomingMessagePayload.sessionId payload)
                       (SocketData.sessionId (data (io w) socket)))) l.
Proof.
  open_world w. unfold sender_or_room. cbn [io rooms data]. crack.
  all: try (exists []; split; [symmetry; apply app_nil_r | constructor]).
  all: eexists; (split; [rewrite <- ?app_assoc; reflexivity|]).
  all: repeat first
         [ apply Forall_nil
         | apply Forall_cons; [left; reflexivity|]
         | apply Forall_app; split
         | apply Forall_fan_out; intros k Hk; right; cbn [fst snd];
           eexists; eexists; split; [reflexivity|]; split; [reflexivity|];
           exact Hk ].
Qed.

(** X12: events stay in the room.  Whatever a [message] event contains and
    whatever the repository and the webhook do, every event the listener
    emits to a socket other than the sender is a [message] event, and that
    socket is in the room of the session the event was addressed to; errors
    and [sessionClosed] notices go to the sender only. *)
Theorem message_events_stay_in_room (socket : SocketId)
    (payload : IncomingMessagePayload.t) (w : World) (k : SocketId)
    (ev : ServerToClientEvents.t) :
  In (k, ev) (new_events w (exec (on_message socket payload) w)) ->
  k <> socket ->
  exists sessionId m,
    nullish (IncomingMessagePayload.sessionId payload)
            (SocketData.sessionId (data (io w) socket)) = Some sessionId /\
    ev = ServerToClientEvents.message m /\
    In (sessionId, k) (rooms (io w)).
Proof.
  intros Hin Hk.
  destruct (on_message_events socket payload w) as (l & He & Hall).
  rewrite (new_events_app _ _ _ He) in Hin.
  rewrite Forall_forall in Hall. specialize (Hall _ Hin).
  destruct Hall as [Heq | (sessionId & m & Hroom & Hev & Hmem)].
  - cbn in Heq. contradiction.
  - exists sessionId, m. repeat split; assumption.
Qed.

Lemma message_events_stay_in_room_witness :
  exists sessionId m,
    nullish (IncomingMessagePayload.sessionId
               (IncomingMessagePayload.mk None (Some "hi") None))
            (SocketData.sessionId (data (io two_tabs) 0%nat)) = Some sessionId /\
    ServerToClientEvents.message
      (mapMessage (user_message two_tabs "a-generated" "hi"))
      = ServerToClientEvents.message m /\
    In (sessionId, 1%nat) (rooms (io two_tabs)).
Proof.
  apply (message_events_stay_in_room 0%nat
           (IncomingMessagePayload.mk None (Some "hi") None) two_tabs 1%nat).
  - vm_compute. right. left. reflexivity.
  - discriminate.
Defined.

(** ** What the listeners leave alone *)

Lemma registerSocketEvents_io (socket : SocketId) (event : ClientToServerEvents.t)
    (w : World) :
  let w' := exec (registerSocketEvents socket event) w in
  connected (io w') = connected (io w) /\
  listening (io w') = listening (io w) /\
  (data (io w') = data (io w) \/
   data (io w') =
     upd socket (SocketData.mk None (SocketData.visitorId (data (io w) socket)))
         (data (io w))) /\
  (rooms (io w') = rooms (io w) \/
   exists room,
     rooms (io w') = filter (fun m => negb (is_member room socket m)) (rooms (io w))).
Proof.
  intros w'. subst w'. destruct event as [p | p | p | p];
    cbn [registerSocketEvents]; open_world w; crack.
  all: repeat split; try (left; reflexivity).
  all: right; try reflexivity; eexists; reflexivity.
Qed.

(** X13: events of a client never cost anyone the connection.  Whatever
    event a client sends and whatever fails while it is handled, no transport
    is disconnected and no listener is removed; the data and the rooms of
    every other socket are untouched; the sender keeps its visitor identity
    and joins no room. *)
Theorem client_events_keep_the_transport (socket : SocketId)
    (event : ClientToServerEvents.t) (w : World) :
  let w' := exec (registerSocketEvents socket event) w in
  connected (io w') = connected (io w) /\
  listening (io w') = listening (io w) /\
  (forall k, k <> socket -> data (io w') k = data (io w) k) /\
  SocketData.visitorId (data (io w') socket)
    = SocketData.visitorId (data (io w) socket) /\
  (forall room k, k <> socket ->
     (In (room, k) (rooms (io w')) <-> In (room, k) (rooms (io w)))) /\
  (forall room, In (room, socket) (rooms (io w')) ->
                In (room, socket) (rooms (io w))).
Proof.
  intros w'. subst w'.
  destruct (registerSocketEvents_io socket event w) as (Hc & Hl & Hd & Hr).
  repeat apply conj; try assumption.
  - intros k Hk. destruct Hd as [-> | ->]; [reflexivity|].
    unfold upd. apply Nat.eqb_neq in Hk. rewrite Hk. reflexivity.
  - destruct Hd as [-> | ->]; [reflexivity|].
    unfold upd. rewrite Nat.eqb_refl. reflexivity.
  - intros room k Hk. destruct Hr as [-> | (r & ->)]; [reflexivity|].
    rewrite filter_In. unfold is_member. cbn [fst snd].
    apply Nat.eqb_neq in Hk. rewrite Hk, andb_false_r. cbn. tauto.
  - intros room. destruct Hr as [-> | (r & ->)]; [trivial|].
    rewrite filter_In. tauto.
Qed.

(** ** The webhook *)

Lemma handleConnection_no_webhook (socket : SocketId) (handshake : Handshake.t)
    (w : World) :
  n8n_calls (ext (exec (handleConnection socket handshake) w)) = n8n_calls (ext w).
Proof. open_world w. unfold ensureSession. crack. all: reflexivity. Qed.

Lemma handleEndSession_no_webhook (socket : SocketId) (p : EndSessionPayload.t)
    (w : World) :
  n8n_calls (ext (exec (handleEndSession socket p) w)) = n8n_calls (ext w).
Proof. open_world w. crack. all: reflexivity. Qed.

Lemma on_heartbeat_no_webhook (socket : SocketId) (p : HeartbeatPayload.t)
    (w : World) :
  n8n_calls (ext (exec (on_heartbeat socket p) w)) = n8n_calls (ext w).
Proof. open_world w. crack. all: reflexivity. Qed.

Lemma on_message_webhook (socket : SocketId) (payload : IncomingMessagePayload.t)
    (w : World) :
  let w' := exec (on_message socket payload) w in
  n8n_calls (ext w') = n8n_calls (ext w) \/
  exists req s,
    n8n_calls (ext w') = n8n_calls (ext w) ++ [req] /\
    nullish (IncomingMessagePayload.sessionId payload)
            (SocketData.sessionId (data (io w) socket))
      = Some (N8nRequest.sessionId req) /\
    find (has_id (N8nRequest.sessionId req)) (chatSession (db w)) = Some s /\
    ChatSession.status s <> CLOSED /\
    N8nRequest.message req <> "" /\
    (length (N8nRequest.history req) <= 50)%nat.
Proof.
  intros w'. subst w'. open_world w. crack.
  all: try (left; reflexivity).
  all: right; eexists; eexists; (split; [reflexivity|]);
    cbn [N8nRequest.sessionId N8nRequest.message N8nRequest.history];
    (split; [reflexivity|]); (split; [eassumption|]);
    (split; [apply not_CLOSED; assumption|]); (split; [discriminate|]);
    rewrite !length_map; apply firstn_le_length.
Qed.

(** X14: when the webhook is called.  Only a [message] event calls the
    webhook, at most once, and only for a session that the listener found in
    the table and not CLOSED, with content that is not empty and a history of
    at most 50 entries; attaches, heartbeats and end-session events never
    call it. *)
Theorem webhook_called_only_for_open_session (w : World) (i : Input) :
  n8n_calls (ext (step w i)) = n8n_calls (ext w) \/
  exists socket payload req s,
    i = client socket (ClientToServerEvents.message payload) /\
    n8n_calls (ext (step w i)) = n8n_calls (ext w) ++ [req] /\
    nullish (IncomingMessagePayload.sessionId payload)
            (SocketData.sessionId (data (io w) socket))
      = Some (N8nRequest.sessionId req) /\
    find (has_id (N8nRequest.sessionId req)) (chatSession (db w)) = Some s /\
    ChatSession.status s <> CLOSED /\
    N8nRequest.message req <> "" /\
    (length (N8nRequest.history req) <= 50)%nat.
Proof.
  destruct i as [socket handshake | socket event]; cbn [step].
  - left. apply (handleConnection_no_webhook socket handshake
                   (set_io (accept socket) w)).
  - destruct (connected (io w) socket && listening (io w) socket);
      [|left; reflexivity].
    destruct event as [p | p | p | p]; cbn [registerSocketEvents].
    + destruct (on_message_webhook socket p w) as [H | (req & s & H)];
        [left; exact H|].
      right. exists socket, p, req, s. split; [reflexivity | exact H].
    + left. apply on_heartbeat_no_webhook.
    + left. apply handleEndSession_no_webhook.
    + left. apply handleEndSession_no_webhook.
Qed.

(** ** After the end of a session *)

(** X15: a message after the end.  Once a socket has ended a session, a
    [message] event it sends without a session id is answered by the one
    [error] event "Session not established yet" (its bound session id is
    gone), and one that names the ended session is answered by the one
    [sessionClosed] notice; neither writes anything. *)
Theorem message_after_end_session (socket : SocketId) (p : EndSessionPayload.t)
    (w : World) (sessionId : string) (s : ChatSession.t) :
  nullish (EndSessionPayload.sessionId p)
          (SocketData.sessionId (data (io w) socket)) = Some sessionId ->
  sessionId <> "" ->
  answers w 3 ->
  find (has_id sessionId) (chatSession (db w)) = Some s ->
  existsb (message_has_id (uuids (ext w) 0%nat)) (chatMessage (db w)) = false ->
  let w1 := exec (handleEndSession socket p) w in
  (forall payload,
     IncomingMessagePayload.sessionId payload = None ->
     let w2 := exec (on_message socket payload) w1 in
     db w2 = db w1 /\
     new_events w1 w2 =
       [(socket, ServerToClientEvents.error
                   "Session not established yet. Please wait.")]) /\
  (forall payload text,
     IncomingMessagePayload.sessionId payload = Some sessionId ->
     IncomingMessagePayload.content payload = Some text ->
     trim text <> "" ->
     let w2 := exec (on_message socket payload) w1 in
     db w2 = db w1 /\
     new_events w1 w2 =
       [(socket, ServerToClientEvents.sessionClosed sessionId
                   "Session was closed. Please start a new chat.")]).
Proof.
  intros Hid Hne Ha Hfind Hfree w1.
  pose proof (Ha 0%nat ltac:(lia)) as Hf0.
  pose proof (Ha 1%nat ltac:(lia)) as Hf1.
  pose proof (Ha 2%nat ltac:(lia)) as Hf2. clear Ha.
  assert (Hw1 : SocketData.sessionId (data (io w1) socket) = None /\
                faults (ext w1) 0%nat = false /\
                find (has_id sessionId) (chatSession (db w1))
                  = Some (touch (dates (ext w) 0%nat) CLOSED s)).
  { subst w1. open_world w. js. rewrite Hid, if_truthy_some by exact Hne.
    js. rewrite Hf0. js. rewrite Hfind. js. rewrite Hf1. js. rewrite Hfree. js.
    repeat split.
    - unfold upd. rewrite Nat.eqb_refl. reflexivity.
    - exact Hf2.
    - apply find_touched_some, Hfind. }
  destruct Hw1 as (Hd & Hf & Hclosed). clearbody w1.
  clear Hid Hfind Hfree Hf0 Hf1 Hf2. split.
  - intros payload Hp w2. subst w2. open_world w1. js. rewrite Hp, Hd. js.
    split; [reflexivity | as_new_events].
  - intros payload text Hp Hc Ht w2. subst w2. open_world w1. js.
    rewrite Hp. cbn [nullish]. rewrite if_truthy_some by exact Hne.
    rewrite Hc. cbn [option_map]. rewrite if_truthy_some by exact Ht.
    js. rewrite Hf. js. rewrite Hclosed. js.
    split; [reflexivity | as_new_events].
Qed.

Lemma message_after_end_session_witness :
  let w1 := exec (handleEndSession 0%nat (EndSessionPayload.mk None)) one_tab in
  new_events w1
    (exec (on_message 0%nat
             (IncomingMessagePayload.mk (Some "a-generated") (Some "x") None)) w1)
  = [(0%nat, ServerToClientEvents.sessionClosed "a-generated"
               "Session was closed. Please start a new chat.")].
Proof.
  intros w1.
  assert (Hend : forall payload text,
            IncomingMessagePayload.sessionId payload = Some "a-generated" ->
            IncomingMessagePayload.content payload = Some text ->
            trim text <> "" ->
            let w2 := exec (on_message 0%nat payload) w1 in
            db w2 = db w1 /\
            new_events w1 w2 =
              [(0%nat, ServerToClientEvents.sessionClosed "a-generated"
                         "Session was closed. Please start a new chat.")]).
  { apply (message_after_end_session 0%nat (EndSessionPayload.mk None) one_tab
             "a-generated"
             (ChatSession.mk "a-generated" "v1" ACTIVE 1000 1001 None)).
    - reflexivity.
    - discriminate.
    - intros i _. reflexivity.
    - reflexivity.
    - reflexivity. }
  apply (Hend (IncomingMessagePayload.mk (Some "a-generated") (Some "x") None) "x").
  - reflexivity.
  - reflexivity.
  - discriminate.
Defined.

(** X16: every message is answered.  A [message] event whose content is
    not blank, sent by a socket that is in the room of the session it
    addresses, always brings the sender at least one event: the echo of its
    message, a [sessionClosed] notice or an [error]; it is never dropped in
    silence, whatever fails. *)
Theorem nonblank_message_is_answered (socket : SocketId)
    (payload : IncomingMessagePayload.t) (w : World) (sessionId text : string) :
  nullish (IncomingMessagePayload.sessionId payload)
          (SocketData.sessionId (data (io w) socket)) = Some sessionId ->
  sessionId <> "" ->
  IncomingMessagePayload.content payload = Some text ->
  trim text <> "" ->
  In (sessionId, socket) (rooms (io w)) ->
  exists ev, In (socket, ev) (new_events w (exec (on_message socket payload) w)).
Proof.
  intros Hid Hne Hc Ht Hroom.
  assert (Hfan : forall ev,
            In (socket, ev)
               (map (fun m => (snd m, ev))
                    (filter (in_room sessionId) (rooms (io w)))))
    by (intros ev; apply (fan_out_member w sessionId socket ev Hroom)).
  unfold new_events. open_world w. js.
  rewrite Hid, if_truthy_some by exact Hne.
  rewrite Hc. cbn [option_map]. rewrite if_truthy_some by exact Ht.
  crack.
  all: eexists; rewrite <- ?app_assoc, skipn_app, skipn_all, Nat.sub_diag;
    cbn [skipn app];
    first [ left; reflexivity
          | apply in_or_app; right; left; reflexivity
          | apply in_or_app; left; apply Hfan ].
Qed.

Lemma nonblank_message_is_answered_witness :
  exists ev,
    In (0%nat, ev)
       (new_events one_tab
          (exec (on_message 0%nat
                   (IncomingMessagePayload.mk None (Some "hi") None)) one_tab)).
Proof.
  apply (nonblank_message_is_answered 0%nat
           (IncomingMessagePayload.mk None (Some "hi") None) one_tab
           "a-generated" "hi").
  - reflexivity.
  - discriminate.
  - reflexivity.
  - discriminate.
  - left. reflexivity.
Defined.

(** ** The tables over a run *)

Lemma touched_identity (i : string) (t : Z) (st : chat_session_status)
    (rows : list ChatSession.t) :
  map identity_of (touched i t st rows) = map identity_of rows.
Proof.
  unfold touched. rewrite map_map. apply map_ext.
  intros r. destruct (has_id i r); reflexivity.
Qed.

Lemma message_fresh_append_unique (rows : list ChatMessage.t) (m : ChatMessage.t) :
  NoDup (map ChatMessage.id rows) ->
  existsb (message_has_id (ChatMessage.id m)) rows = false ->
  NoDup (map ChatMessage.id (rows ++ [m])).
Proof.
  intros Hnd Hfree. rewrite map_app. cbn. apply NoDup_app.
  - exact Hnd.
  - repeat constructor. intros [].
  - intros i Hi [<- | []]. apply in_map_iff in Hi.
    destruct Hi as (r & Hr & Hin).
    assert (Hex : existsb (message_has_id (ChatMessage.id m)) rows = true).
    { apply existsb_exists. exists r. split; [exact Hin|].
      unfold message_has_id. apply String.eqb_eq. exact Hr. }
    congruence.
Qed.

(** The message table after a run of a listener: the old rows followed by
    new ones, whose ids are not taken. *)
Lemma on_message_messages (socket : SocketId) (payload : IncomingMessagePayload.t)
    (w : World) :
  let w' := exec (on_message socket payload) w in
  (exists l, chatMessage (db w') = chatMessage (db w) ++ l) /\
  (unique_message_ids w -> unique_message_ids w').
Proof.
  intros w'. subst w'. unfold unique_message_ids. open_world w. crack.
  all: split;
    [ first [ exists []; symmetry; apply app_nil_r
            | eexists; rewrite <- ?app_assoc; reflexivity ]
    | intros Hnd; try exact Hnd ].
  all: repeat (apply message_fresh_append_unique; [|assumption]); exact Hnd.
Qed.

Lemma handleEndSession_messages (socket : SocketId) (p : EndSessionPayload.t)
    (w : World) :
  let w' := exec (handleEndSession socket p) w in
  (exists l, chatMessage (db w') = chatMessage (db w) ++ l) /\
  (unique_message_ids w -> unique_message_ids w').
Proof.
  intros w'. subst w'. unfold unique_message_ids. open_world w. crack.
  all: split;
    [ first [ exists []; symmetry; apply app_nil_r
            | eexists; rewrite <- ?app_assoc; reflexivity ]
    | intros Hnd; try exact Hnd ].
  all: repeat (apply message_fresh_append_unique; [|assumption]); exact Hnd.
Qed.

Lemma handleConnection_messages (socket : SocketId) (handshake : Handshake.t)
    (w : World) :
  chatMessage (db (exec (handleConnection socket handshake) w)) = chatMessage (db w).
Proof. open_world w. unfold ensureSession. crack. all: reflexivity. Qed.

Lemma on_heartbeat_messages (socket : SocketId) (p : HeartbeatPayload.t)
    (w : World) :
  chatMessage (db (exec (on_heartbeat socket p) w)) = chatMessage (db w).
Proof. open_world w. crack. all: reflexivity. Qed.

Lemma step_messages (w : World) (i : Input) :
  (exists l, chatMessage (db (step w i)) = chatMessage (db w) ++ l) /\
  (unique_message_ids w -> unique_message_ids (step w i)).
Proof.
  destruct i as [socket handshake | socket event]; cbn [step].
  - unfold unique_message_ids.
    rewrite (handleConnection_messages socket handshake (set_io (accept socket) w)).
    cbn [set_io db]. split; [exists []; symmetry; apply app_nil_r | trivial].
  - destruct (connected (io w) socket && listening (io w) socket);
      [|split; [exists []; symmetry; apply app_nil_r | trivial]].
    destruct event as [p | p | p | p]; cbn [registerSocketEvents].
    + apply on_message_messages.
    + unfold unique_message_ids. rewrite (on_heartbeat_messages socket p w).
      split; [exists []; symmetry; apply app_nil_r | trivial].
    + apply handleEndSession_messages.
    + apply handleEndSession_messages.
Qed.

Lemma step_identity (w : World) (i : Input) :
  exists l,
    map identity_of (chatSession (db (step w i)))
    = map identity_of (chatSession (db w)) ++ l.
Proof.
  destruct i as [socket handshake | socket event]; cbn [step].
  - destruct (handleConnection_sessions socket handshake (set_io (accept socket) w))
      as [-> | (s & rows1 & t & _ & Hrows1 & Hrows')];
      [exists []; symmetry; apply app_nil_r|].
    cbn [set_io db] in *.
    assert (H1 : exists l, map identity_of rows1
                           = map identity_of (chatSession (db w)) ++ l).
    { destruct Hrows1 as [[_ ->] | [_ ->]].
      - exists []. symmetry. apply app_nil_r.
      - exists [identity_of s]. apply map_app. }
    destruct Hrows' as [-> | ->]; [exact H1|].
    rewrite touched_identity. exact H1.
  - destruct (connected (io w) socket && listening (io w) socket);
      [|exists []; symmetry; apply app_nil_r].
    exists []. rewrite app_nil_r.
    destruct event as [p | p | p | p]; cbn [registerSocketEvents].
    + destruct (on_message_sessions socket p w)
        as [-> | (sid & s & t & _ & _ & ->)]; [reflexivity|].
      apply touched_identity.
    + destruct (on_heartbeat_sessions socket p w) as [-> | (sid & t & ->)];
        [reflexivity|]. apply touched_identity.
    + destruct (handleEndSession_sessions socket p w) as [-> | (sid & t & ->)];
        [reflexivity|]. apply touched_identity.
    + destruct (handleEndSession_sessions socket p w) as [-> | (sid & t & ->)];
        [reflexivity|]. apply touched_identity.
Qed.

(** X17: the tables only grow.  Over any sequence of connections and
    client events, whatever fails on the way, no message is ever changed or
    removed (the message table keeps its rows and gets new ones at the end),
    and no session is ever removed or given another id, owner, creation time
    or metadata (sessions keep their place; new ones come at the end). *)
Theorem tables_only_grow (inputs : list Input) (w : World) :
  exists new_sessions new_messages,
    map identity_of (chatSession (db (run w inputs)))
      = map identity_of (chatSession (db w)) ++ new_sessions /\
    chatMessage (db (run w inputs)) = chatMessage (db w) ++ new_messages.
Proof.
  revert w. induction inputs as [|i inputs IH]; intros w; cbn.
  - exists [], []. split; symmetry; apply app_nil_r.
  - destruct (IH (step w i)) as (ls & lm & Hs & Hm).
    destruct (step_identity w i) as (ls0 & Hs0).
    destruct (step_messages w i) as [(lm0 & Hm0) _].
    exists (ls0 ++ ls), (lm0 ++ lm).
    unfold run in *. rewrite Hs, Hm, Hs0, Hm0, <- !app_assoc. split; reflexivity.
Qed.

(** X18: the primary keys hold.  If the ids of the session table and of
    the message table are unique, they still are after any sequence of
    connections and client events. *)
Theorem primary_keys_hold (inputs : list Input) (w : World) :
  unique_ids w -> unique_message_ids w ->
  unique_ids (run w inputs) /\ unique_message_ids (run w inputs).
Proof.
  revert w. induction inputs as [|i inputs IH]; intros w Hs Hm; cbn.
  - split; assumption.
  - apply IH; [apply step_unique_ids, Hs | apply step_messages, Hm].
Qed.

Lemma primary_keys_hold_witness :
  unique_ids (run empty_world [connection 0%nat (visitor "v1" None);
                               client 0%nat (say None "hi")]) /\
  unique_message_ids (run empty_world [connection 0%nat (visitor "v1" None);
                                       client 0%nat (say None "hi")]).
Proof.
  apply (primary_keys_hold _ empty_world); constructor.
Defined.

(** A [where] clause keeps the ids of the selected rows distinct. *)
Lemma selected_message_ids_unique (keep : ChatMessage.t -> bool)
    (rows : list ChatMessage.t) :
  NoDup (map ChatMessage.id rows) ->
  NoDup (map ChatMessage.id (filter keep rows)).
Proof.
  induction rows as [|m rows IH]; cbn; intros Hnd; [constructor|].
  inversion Hnd as [|? ? Hm Hrows]; subst.
  destruct (keep m); cbn; [|apply IH, Hrows].
  constructor; [|apply IH, Hrows].
  intros Hin. apply Hm. apply in_map_iff in Hin.
  destruct Hin as (m' & Hid & Hin). apply filter_In in Hin.
  apply in_map_iff. exists m'. split; [exact Hid | apply Hin].
Qed.

Lemma NoDup_firstn {A} (n : nat) (l : list A) : NoDup l -> NoDup (firstn n l).
Proof.
  intros Hnd. rewrite <- (firstn_skipn n l) in Hnd.
  exact (NoDup_app_remove_r _ _ Hnd).
Qed.

(** X19: a history has no duplicate.  When the ids of the message table
    are unique, a history load that the repository answers returns no id
    twice. *)
Theorem history_has_no_duplicate_ids (sessionId : string) (limit : option nat)
    (w : World) :
  unique_message_ids w -> faults (ext w) 0%nat = false ->
  exists h,
    getHistory sessionId limit w = (Ok h, set_ext take_fault w) /\
    NoDup (map ChatMessageDto.id h).
Proof.
  intros Hnd Hf. rewrite getHistory_run by exact Hf.
  eexists. split; [reflexivity|]. unfold history_rows.
  rewrite map_map. cbn [mapMessage ChatMessageDto.id].
  change (fun x : ChatMessage.t => ChatMessage.id x) with ChatMessage.id.
  rewrite <- firstn_map. apply NoDup_firstn.
  eapply Permutation_NoDup;
    [apply Permutation_map, Permutation_sym, orderBy_perm|].
  apply selected_message_ids_unique. exact Hnd.
Qed.

Lemma history_has_no_duplicate_ids_witness :
  let w := exec (on_message 0%nat
                   (IncomingMessagePayload.mk None (Some "hi") None)) one_tab in
  exists h,
    getHistory "a-generated" None w = (Ok h, set_ext take_fault w) /\
    NoDup (map ChatMessageDto.id h).
Proof.
  intros w. apply (history_has_no_duplicate_ids "a-generated" None w).
  - unfold unique_message_ids.
    change (NoDup ["b-generated"; "c-generated"]).
    constructor; [|constructor; [intros [] | constructor]].
    intros [H | []]. discriminate.
  - reflexivity.
Defined.

(** ** A listener that starts on a closed session *)

(** X20: a listener that starts on a CLOSED session leaves it CLOSED.  With
    unique session ids, a connection, a [message] event or an end-session
    event that is handled, from the start of its listener to its end, when
    a session is already CLOSED leaves that session CLOSED: the [message]
    listener refuses it at its status check, an attach updates only the
    session the resolver returned, which is not a CLOSED one, and ending a
    session writes CLOSED.  The heartbeat listener is excluded, and so is a
    listener that had passed its status check before the session was
    closed. *)
Theorem closed_session_stays_closed (w : World) (i : Input)
    (sessionId : string) :
  unique_ids w ->
  is_heartbeat i = false ->
  status_of w sessionId = Some CLOSED ->
  status_of (step w i) sessionId = Some CLOSED.
Proof.
  intros Hnd Hnot Hclosed.
  exact (closed_stays_closed w i sessionId Hnd Hnot Hclosed).
Qed.

Lemma ended_unique_ids : unique_ids ended.
Proof.
  unfold unique_ids. change (NoDup ["a-generated"]).
  constructor; [intros [] | constructor].
Qed.

Lemma closed_session_stays_closed_witness :
  status_of ended "a-generated" = Some CLOSED /\
  status_of
    (step ended (connection 2%nat (visitor "v1" (Some "a-generated"))))
    "a-generated"
  = Some CLOSED.
Proof.
  split; [reflexivity|].
  apply (closed_session_stays_closed ended _ "a-generated").
  - exact ended_unique_ids.
  - reflexivity.
  - reflexivity.
Defined.

(** ** Attaching a visitor who gives its identity *)

Lemma supplied_visitor_phase (handshake : Handshake.t) (v : string) (w : World) :
  supplied_visitorId handshake = Some v -> v <> "" ->
  if_truthy (supplied_visitorId handshake) ret uuid w = (Ok v, w).
Proof. intros -> Hv. rewrite if_truthy_some by exact Hv. reflexivity. Qed.

(** Steps 1 and 2 falling through, with the world in which step 3 starts. *)
Lemma not_reattachable_falls_through (w : World) (req : option string) :
  (forall s0, ~ reattachable w req s0) -> faults (ext w) 0%nat = false ->
  exists wa,
    (wa = w \/ wa = set_ext take_fault w) /\
    forall v, ensureSession v req w = ensureSession v None wa.
Proof.
  intros Hno Hf.
  destruct (not_reattachable_cases w req Hno) as [Hfalsy | (r & -> & Hr & Hclosed)].
  - exists w. split; [left; reflexivity|].
    intros v. apply ensureSession_falsy, Hfalsy.
  - exists (set_ext take_fault w). split; [right; reflexivity|].
    intros v. apply ensureSession_skip; assumption.
Qed.



Lemma touched_fresh (i : string) (t : Z) (st : chat_session_status)
    (rows : list ChatSession.t) :
  existsb (has_id i) rows = false -> touched i t st rows = rows.
Proof.
  intros Hfree. unfold touched. induction rows as [|r rows IH]; cbn in *;
    [reflexivity|].
  apply orb_false_iff in Hfree. destruct Hfree as [Hr Hrows].
  rewrite Hr, (IH Hrows). reflexivity.
Qed.

Lemma touched_new (t : Z) (st : chat_session_status)
    (rows : list ChatSession.t) (s : ChatSession.t) :
  existsb (has_id (ChatSession.id s)) rows = false ->
  touched (ChatSession.id s) t st (rows ++ [s]) = rows ++ [touch t st s].
Proof.
  intros Hfree. unfold touched. rewrite map_app.
  fold (touched (ChatSession.id s) t st rows). rewrite (touched_fresh _ _ _ _ Hfree).
  cbn. unfold has_id. rewrite String.eqb_refl. reflexivity.
Qed.

(** X22: first contact.  A visitor who gives its identity, requests no
    session that can be reattached and owns no open session gets a new
    session: the repository answering, one row is appended, owned by the
    visitor, ACTIVE, with the generated id; the socket is bound to it, stays
    connected and receives the [session] event with status ACTIVE. *)
Theorem first_contact_creates_session (socket : SocketId)
    (handshake : Handshake.t) (w : World) (v : string) :
  supplied_visitorId handshake = Some v -> v <> "" ->
  (forall s0, ~ reattachable w (requested_sessionId handshake) s0) ->
  (forall s, In s (chatSession (db w)) -> ~ open_for v s) ->
  existsb (has_id (uuids (ext w) 0%nat)) (chatSession (db w)) = false ->
  answers w 5 ->
  let w' := step w (connection socket handshake) in
  let new := created_session w v in
  data (io w') socket = SocketData.mk (Some (ChatSession.id new)) (Some v) /\
  connected (io w') socket = true /\
  chatSession (db w')
    = chatSession (db w) ++ [touch (dates (ext w) 1%nat) ACTIVE new] /\
  chatMessage (db w') = chatMessage (db w) /\
  new_events w w' =
    (socket, ServerToClientEvents.session (ChatSession.id new) v ACTIVE)
    :: replay socket (history_rows (db w) (ChatSession.id new) 100).
Proof.
  intros Hv Hvne Hno Hnone Hfree Ha w' new. subst w'. cbn [step].
  set (w1 := set_io (accept socket) w). apply no_open_session in Hnone.
  destruct (not_reattachable_falls_through w1 (requested_sessionId handshake))
    as (wa & Hwa & Hrun); [exact Hno | apply (Ha 0%nat); lia |].
  assert (Hfa : faults (ext wa) 0%nat = false /\ faults (ext wa) 1%nat = false /\
                faults (ext wa) 2%nat = false /\ faults (ext wa) 3%nat = false /\
                db wa = db w /\ io wa = io w1 /\ dates (ext wa) = dates (ext w) /\
                uuids (ext wa) = uuids (ext w)).
  { destruct Hwa as [-> | ->]; cbn; unfold advance; repeat split;
      apply Ha; lia. }
  destruct Hfa as (Hf0 & Hf1 & Hf2 & Hf3 & Hdb & Hio & Hdates & Huuids).
  assert (Hnew : created_session wa v = new)
    by (unfold new, created_session; rewrite Hdates, Huuids; reflexivity).
  assert (Hs : ensureSession v (requested_sessionId handshake) w1
               = (Ok new, after_create wa v)).
  { rewrite Hrun, <- Hnew. apply ensureSession_create_run; try assumption;
      rewrite Hdb; try assumption. rewrite Huuids. exact Hfree. }
  assert (Ha1 : answers (after_create wa v) 2).
  { intros n Hn. cbn. unfold advance.
    destruct n as [|[|n]]; [exact Hf2 | exact Hf3 | lia]. }
  destruct (handleConnection_attaches socket handshake w1 w1
              (after_create wa v) v new
              (supplied_visitor_phase handshake v w1 Hv Hvne) Hs Ha1)
    as (He & Hd & _ & _ & Hc & _ & Hm & Hss).
  cbn [after_create db io ext dates take_fault take_date take_uuid chatSession
       chatMessage] in He, Hc, Hss, Hm.
  rewrite Hnew, Hdb in Hss. rewrite Hdb in Hm. rewrite Hio in He, Hc.
  unfold advance in Hss. rewrite Hdates in Hss.
  repeat apply conj.
  - exact Hd.
  - rewrite Hc. cbn. unfold upd. rewrite Nat.eqb_refl. reflexivity.
  - rewrite Hss. apply (touched_new _ _ _ new). exact Hfree.
  - exact Hm.
  - apply new_events_app. rewrite He. unfold history_rows.
    cbn [chatMessage]. rewrite Hdb. reflexivity.
Qed.

Lemma first_contact_creates_session_witness :
  let w' := step empty_world (connection 0%nat (visitor "v1" None)) in
  data (io w') 0%nat = SocketData.mk (Some "a-generated") (Some "v1") /\
  new_events empty_world w'
    = [(0%nat, ServerToClientEvents.session "a-generated" "v1" ACTIVE)].
Proof.
  intros w'.
  destruct (first_contact_creates_session 0%nat (visitor "v1" None) empty_world
              "v1") as (Hd & _ & _ & _ & He).
  - reflexivity.
  - discriminate.
  - intros s0 (r & Hr & _). discriminate.
  - intros s [].
  - reflexivity.
  - intros i _. reflexivity.
  - split; [exact Hd | exact He].
Defined.

(** X23: a refused attach does not undo the session.  When step 4 has
    created the session and the history load that follows is rejected, the
    socket has received the [session] event, then receives the [error] event
    and is disconnected; the session that was created stays in the table,
    ACTIVE and owned by the visitor. *)
Theorem refused_attach_keeps_created_session (socket : SocketId)
    (handshake : Handshake.t) (w : World) (v : string) :
  supplied_visitorId handshake = Some v -> v <> "" ->
  truthy (requested_sessionId handshake) = false ->
  (forall s, In s (chatSession (db w)) -> ~ open_for v s) ->
  existsb (has_id (uuids (ext w) 0%nat)) (chatSession (db w)) = false ->
  faults (ext w) 0%nat = false -> faults (ext w) 1%nat = false ->
  faults (ext w) 2%nat = true ->
  let w' := step w (connection socket handshake) in
  let new := created_session w v in
  connected (io w') socket = false /\
  (forall room, ~ In (room, socket) (rooms (io w'))) /\
  chatSession (db w') = chatSession (db w) ++ [new] /\
  new_events w w' =
    [(socket, ServerToClientEvents.session (ChatSession.id new) v ACTIVE);
     attach_error socket].
Proof.
  intros Hv Hvne Hreq Hnone Hfree Hf0 Hf1 Hf2 w' new. subst w' new.
  cbn [step]. set (w1 := set_io (accept socket) w).
  apply no_open_session in Hnone.
  assert (Hs : ensureSession v (requested_sessionId handshake) w1
               = (Ok (created_session w1 v), after_create w1 v)).
  { rewrite ensureSession_falsy by exact Hreq.
    apply ensureSession_create_run; assumption. }
  unfold exec, handleConnection.
  rewrite (bind_ok _ _ _ _ _ (supplied_visitor_phase handshake v w1 Hv Hvne)).
  cbv zeta. unfold try_catch. rewrite (bind_ok _ _ _ _ _ Hs).
  clear Hs.
  do 5 (erewrite bind_ok; [| reflexivity]).
  erewrite bind_throw;
    [| apply getHistory_fault; subst w1; unfold after_create; open_world w;
       exact Hf2].
  subst w1. unfold after_create, created_session, attach_error.
  open_world w.
  lazy beta iota zeta delta
    [socket_emit socket_disconnect bind ret modify set_io set_ext set_db
     take_fault take_uuid take_date advance accept snd fst
     db io ext chatSession chatMessage data rooms connected listening emitted
     faults uuids dates n8n_replies n8n_calls
     ChatSession.id ChatSession.status].
  repeat apply conj.
  - unfold upd. rewrite Nat.eqb_refl. reflexivity.
  - intros room. apply not_member_after_disconnect.
  - reflexivity.
  - as_new_events.
Qed.

Lemma refused_attach_keeps_created_session_witness :
  let w := set_ext (fun e => mkExt (fun n => Nat.eqb n 2) (uuids e) (dates e)
                                   (n8n_replies e) (n8n_calls e)) empty_world in
  let w' := step w (connection 0%nat (visitor "v1" None)) in
  connected (io w') 0%nat = false /\
  map ChatSession.id (chatSession (db w')) = ["a-generated"].
Proof.
  intros w w'.
  destruct (refused_attach_keeps_created_session 0%nat (visitor "v1" None) w "v1")
    as (Hc & _ & Hs & _); try reflexivity.
  - discriminate.
  - intros s [].
  - split; [exact Hc|]. fold w' in Hs. rewrite Hs. reflexivity.
Defined.
